(** * DCF valuation engine: a shallow embedding of [models/dcf_model.py]
      and of the inline computation of [valuation_dashboard.py].

    Number model.  The program computes on IEEE binary64 values (Python
    [float], numpy [float64]).  They are idealised here as exact rationals
    [Q]: rounding, overflow and signed zeros are not modelled.  What is kept
    is the part of the float semantics the program's control flow depends
    on:
    - a Python [float] division by zero raises [ZeroDivisionError];
    - a numpy [float64] division by zero raises nothing and yields an
      infinity or a not-a-number, which then propagate through [*] and [+];
    - indexing an empty Python list with [-1] raises [IndexError].

    What the idealisation leaves out, and how the statements below are
    kept independent of it:
    - Python's [float ** int] raises [OverflowError] when the power leaves
      the binary64 range, which for [(1 + wacc) ** 5] needs [|1 + wacc|]
      above about [4e61]; numpy's power, used by the sweep, gives an
      infinity there and raises nothing.  The model has no such
      exception: off the zero divisors its [run_valuation] is total.  The
      statements on the outcome of [run_valuation] itself (C2, C10, X1)
      assert a return only for [-1 < wacc <= 1], on which the powers lie
      in [(0, 32]], and are otherwise conditional on the result;
    - [wacc + 0.01] and [wacc - 0.01] are rounded sums and [0.01] is not
      [1/100] in binary64, so whether a perturbed rate meets another rate
      exactly is not decided by the rationals.  No statement below rests
      on such a coincidence;
    - two neighbouring binary64 inputs can round to the same result, so
      the monotonicity statements are made with [<=]. *)

From Stdlib Require Import QArith Qpower Qabs Lqa ZArith Lia Bool.
From stdpp Require Import base list.

Open Scope Q_scope.

(** ** Python exceptions and the error monad *)

Inductive exn : Type :=
| ZeroDivisionError
| IndexError.

Inductive res (A : Type) : Type :=
| Ok (a : A)
| Raise (e : exn).
Arguments Ok {A} a.
Arguments Raise {A} e.

Definition bind {A B : Type} (c : res A) (k : A -> res B) : res B :=
  match c with
  | Ok a => k a
  | Raise e => Raise e
  end.

Notation "'let!' x ':=' c 'in' k" := (bind c (fun x => k))
  (at level 10, x name, c at level 100, k at level 200).

(** A comprehension whose body may raise: elements are evaluated left to
    right and the first exception aborts the whole list. *)
Fixpoint comprehension {A B : Type} (f : A -> res B) (l : list A)
  : res (list B) :=
  match l with
  | [] => Ok []
  | x :: l' =>
      let! y := f x in
      let! ys := comprehension f l' in
      Ok (y :: ys)
  end.

(** A [for] loop threading a state, whose body may raise. *)
Fixpoint for_each {S A : Type} (body : S -> A -> res S) (l : list A) (s : S)
  : res S :=
  match l with
  | [] => Ok s
  | x :: l' => let! s' := body s x in for_each body l' s'
  end.

Definition succeeds {A : Type} (c : res A) : Prop := exists a, c = Ok a.
Definition fails {A : Type} (c : res A) : Prop := exists e, c = Raise e.

(** ** Python [float] and list primitives *)

(** [a / b] on Python floats. *)
Definition py_div (a b : Q) : res Q :=
  if Qeq_bool b 0 then Raise ZeroDivisionError else Ok (a / b).

(** [l[-1]]. *)
Definition py_last (l : list Q) : res Q :=
  match l with
  | [] => Raise IndexError
  | x :: l' => Ok (List.last l' x)
  end.

(** [sum(l)]: the built-in starts from [0] and adds from the left. *)
Definition py_sum (l : list Q) : Q := fold_left Qplus l 0.

(** [zip(l1, l2)] followed by a product of the components. *)
Definition zip_mul (l1 l2 : list Q) : list Q :=
  List.map (fun p => fst p * snd p) (List.combine l1 l2).

(** [range(lo, hi)]. *)
Definition py_range (lo hi : Z) : list Z :=
  List.map (fun k => (lo + Z.of_nat k)%Z) (List.seq 0 (Z.to_nat (hi - lo))).

(** [enumerate(l)]. *)
Definition enumerate {A : Type} (l : list A) : list (nat * A) :=
  List.combine (List.seq 0 (length l)) l.

(** ** The model: [class DCFModel] *)

Record DCFModel : Type := mkDCFModel {
  current_revenue : Q;
  growth_rates : list Q;
  ebit_margin : Q;
  tax_rate : Q;
  wacc : Q;
  terminal_growth : Q;
  fcf_conversion : Q
}.

(** The dictionary returned by [run_valuation]. *)
Record Valuation : Type := mkValuation {
  revenues : list Q;
  ebits : list Q;
  nopats : list Q;
  fcfs : list Q;
  discount_factors : list Q;
  pv_fcfs : list Q;
  terminal_value : Q;
  pv_terminal_value : Q;
  pv_forecast_period : Q;
  enterprise_value : Q
}.

Section Methods.

Variable self : DCFModel.

(** [project_revenue]: the list starts as [[current_revenue]], every
    growth rate appends [revenues[-1] * (1 + growth)], and the slice
    [revenues[1:]] drops year 0.  [revenues[-1]] cannot raise: the list
    holds at least [current_revenue]. *)
Definition project_revenue_loop (revs : list Q) (growths : list Q)
  : list Q :=
  fold_left
    (fun revs growth => revs ++ [List.last revs 0 * (1 + growth)])
    growths revs.

Definition project_revenue : list Q :=
  List.tl (project_revenue_loop [current_revenue self] (growth_rates self)).

Definition calculate_ebit (revenues : list Q) : list Q :=
  List.map (fun rev => rev * ebit_margin self) revenues.

Definition calculate_nopat (ebits : list Q) : list Q :=
  List.map (fun ebit => ebit * (1 - tax_rate self)) ebits.

Definition calculate_fcf (nopats : list Q) : list Q :=
  List.map (fun nopat => nopat * fcf_conversion self) nopats.

(** [1 / (1 + self.wacc) ** year]: the power binds tighter than the
    division, which raises on a zero power.  The [OverflowError] of [**]
    on a power outside the binary64 range is not modelled. *)
Definition calculate_discount_factors : res (list Q) :=
  comprehension (fun year => py_div 1 ((1 + wacc self) ^ year))
                (py_range 1 6).

Definition calculate_pv_fcf (fcfs discount_factors : list Q) : list Q :=
  zip_mul fcfs discount_factors.

Definition calculate_terminal_value (final_fcf : Q) : res Q :=
  py_div (final_fcf * (1 + terminal_growth self))
         (wacc self - terminal_growth self).

Definition calculate_pv_terminal_value
  (terminal_value final_discount_factor : Q) : Q :=
  terminal_value * final_discount_factor.

Definition run_valuation : res Valuation :=
  let revenues := project_revenue in
  let ebits := calculate_ebit revenues in
  let nopats := calculate_nopat ebits in
  let fcfs := calculate_fcf nopats in
  let! discount_factors := calculate_discount_factors in
  let pv_fcfs := calculate_pv_fcf fcfs discount_factors in
  let! final_fcf := py_last fcfs in
  let! terminal_value := calculate_terminal_value final_fcf in
  let! final_df := py_last discount_factors in
  let pv_terminal_value :=
    calculate_pv_terminal_value terminal_value final_df in
  let pv_forecast_period := py_sum pv_fcfs in
  let enterprise_value := pv_forecast_period + pv_terminal_value in
  Ok {| revenues := revenues;
        ebits := ebits;
        nopats := nopats;
        fcfs := fcfs;
        discount_factors := discount_factors;
        pv_fcfs := pv_fcfs;
        terminal_value := terminal_value;
        pv_terminal_value := pv_terminal_value;
        pv_forecast_period := pv_forecast_period;
        enterprise_value := enterprise_value |}.

End Methods.

(** The scenario of the specification. *)
Definition scenario : DCFModel :=
  {| current_revenue := 100;
     growth_rates := [15 # 100; 12 # 100; 10 # 100; 8 # 100; 6 # 100];
     ebit_margin := 20 # 100;
     tax_rate := 25 # 100;
     wacc := 10 # 100;
     terminal_growth := 3 # 100;
     fcf_conversion := 80 # 100 |}.

(** ** numpy [float64] values

    The axes of the sweep are numpy arrays, so [w] and [tg] are [float64]
    scalars and every operation they take part in is a numpy operation: a
    division by zero yields an infinity (a not-a-number for [0 / 0]) instead
    of raising.  The zero denominators of the sweep, [w - tg] and
    [(1 + w) ** year], are positive zeros, so the sign of the quotient is
    the sign of the numerator. *)

Inductive float64 : Type :=
| Fin (q : Q)
| PInf
| NInf
| NaN.

(** The infinity with the sign of a comparison against zero. *)
Definition signed_inf (c : comparison) : float64 :=
  match c with
  | Gt => PInf
  | Lt => NInf
  | Eq => NaN
  end.

Definition np_add (a b : float64) : float64 :=
  match a, b with
  | NaN, _ | _, NaN => NaN
  | Fin x, Fin y => Fin (x + y)
  | PInf, NInf | NInf, PInf => NaN
  | PInf, _ | _, PInf => PInf
  | NInf, _ | _, NInf => NInf
  end.

Definition np_mul (a b : float64) : float64 :=
  match a, b with
  | NaN, _ | _, NaN => NaN
  | Fin x, Fin y => Fin (x * y)
  | Fin x, PInf | PInf, Fin x => signed_inf (x ?= 0)
  | Fin x, NInf | NInf, Fin x => signed_inf (0 ?= x)
  | PInf, PInf | NInf, NInf => PInf
  | PInf, NInf | NInf, PInf => NInf
  end.

Definition np_div (a b : float64) : float64 :=
  match a, b with
  | NaN, _ | _, NaN => NaN
  | Fin x, Fin y =>
      if Qeq_bool y 0 then signed_inf (x ?= 0) else Fin (x / y)
  | Fin _, (PInf | NInf) => Fin 0
  | PInf, Fin y => if Qle_bool 0 y then PInf else NInf
  | NInf, Fin y => if Qle_bool 0 y then NInf else PInf
  | (PInf | NInf), (PInf | NInf) => NaN
  end.

(** [sum(l)] on a list of [float64]. *)
Definition np_sum (l : list float64) : float64 := fold_left np_add l (Fin 0).

(** A two-dimensional array. *)
Abbreviation matrix := (list (list float64)).

(** [np.zeros((rows, cols))]. *)
Definition np_zeros (rows cols : nat) : matrix :=
  replicate rows (replicate cols (Fin 0)).

(** [m[i, j] = v].  numpy raises on an index out of range; the sweep only
    assigns at the indices it enumerates from the axes that gave the array
    its shape, so that case does not arise and the array is left as it is
    there. *)
Definition matrix_set (m : matrix) (i j : nat) (v : float64) : matrix :=
  alter (fun row => <[j := v]> row) i m.

(** [m[i, j]]. *)
Definition matrix_get (m : matrix) (i j : nat) : option float64 :=
  match m !! i with
  | Some row => row !! j
  | None => None
  end.

(** The body of the inner loop of [sensitivity_analysis], up to the value
    assigned to the cell.  [temp_discount_factors[-1]] cannot raise: the
    list has the five entries of [range(1, 6)]. *)
Definition sweep_cell (fcfs : list Q) (tg w : Q) : res float64 :=
  let temp_discount_factors :=
    List.map (fun year => np_div (Fin 1) (Fin ((1 + w) ^ year)))
             (py_range 1 6) in
  let temp_pv_fcfs :=
    List.map (fun p => np_mul (Fin (fst p)) (snd p))
             (List.combine fcfs temp_discount_factors) in
  let! final_fcf := py_last fcfs in
  let temp_terminal_value :=
    np_div (Fin (final_fcf * (1 + tg))) (Fin (w - tg)) in
  let temp_pv_terminal :=
    np_mul temp_terminal_value (List.last temp_discount_factors NaN) in
  Ok (np_add (np_sum temp_pv_fcfs) temp_pv_terminal).

Definition sensitivity_analysis (self : DCFModel)
  (wacc_range tg_range : list Q) : res matrix :=
  let revenues := project_revenue self in
  let ebits := calculate_ebit self revenues in
  let nopats := calculate_nopat self ebits in
  let fcfs := calculate_fcf self nopats in
  let sensitivity_matrix := np_zeros (length tg_range) (length wacc_range) in
  for_each
    (fun sensitivity_matrix itg =>
       for_each
         (fun sensitivity_matrix jw =>
            let! v := sweep_cell fcfs (snd itg) (snd jw) in
            Ok (matrix_set sensitivity_matrix (fst itg) (fst jw) v))
         (enumerate wacc_range) sensitivity_matrix)
    (enumerate tg_range) sensitivity_matrix.

(** The literal [0.01], idealised as [1/100]; the binary64 literal is
    slightly above it. *)
Definition one_point : Q := 1 # 100.

(** [DCFModel(..., self.wacc + d, ...)]: every other field is copied. *)
Definition with_wacc (self : DCFModel) (w : Q) : DCFModel :=
  mkDCFModel (current_revenue self) (growth_rates self) (ebit_margin self)
             (tax_rate self) w (terminal_growth self) (fcf_conversion self).

Definition with_terminal_growth (self : DCFModel) (g : Q) : DCFModel :=
  mkDCFModel (current_revenue self) (growth_rates self) (ebit_margin self)
             (tax_rate self) (wacc self) g (fcf_conversion self).

Definition with_growth_rates (self : DCFModel) (growths : list Q) : DCFModel :=
  mkDCFModel (current_revenue self) growths (ebit_margin self)
             (tax_rate self) (wacc self) (terminal_growth self)
             (fcf_conversion self).

Definition calculate_wacc_sensitivity (self : DCFModel) : res (Q * Q) :=
  let! results := run_valuation self in
  let base_ev := enterprise_value results in
  let model_plus := with_wacc self (wacc self + one_point) in
  let! results_plus := run_valuation model_plus in
  let ev_plus := enterprise_value results_plus in
  let model_minus := with_wacc self (wacc self - one_point) in
  let! results_minus := run_valuation model_minus in
  let ev_minus := enterprise_value results_minus in
  let! sensitivity := py_div (ev_minus - ev_plus) (2 * base_ev) in
  Ok (sensitivity, base_ev).

(** ** The inline computation of [valuation_dashboard.py]

    The script computes the same quantities at top level, from the seven
    values read from the sidebar. *)
Definition dashboard_dcf (current_revenue : Q) (growth_rates : list Q)
  (ebit_margin tax_rate wacc terminal_growth fcf_conversion : Q)
  : res Valuation :=
  let revenues :=
    fold_left
      (fun revenues igrowth =>
         revenues ++ [List.last revenues 0 * (1 + snd igrowth)])
      (enumerate growth_rates) [current_revenue] in
  let projected_revenues := List.tl revenues in
  let ebits := List.map (fun rev => rev * ebit_margin) projected_revenues in
  let nopats := List.map (fun ebit => ebit * (1 - tax_rate)) ebits in
  let fcfs := List.map (fun nopat => nopat * fcf_conversion) nopats in
  let! discount_factors :=
    comprehension (fun year => py_div 1 ((1 + wacc) ^ year)) (py_range 1 6) in
  let pv_fcfs :=
    List.map (fun p => fst p * snd p) (List.combine fcfs discount_factors) in
  let! final_fcf := py_last fcfs in
  let! terminal_value :=
    py_div (final_fcf * (1 + terminal_growth)) (wacc - terminal_growth) in
  let! final_df := py_last discount_factors in
  let pv_terminal_value := terminal_value * final_df in
  let pv_forecast_period := py_sum pv_fcfs in
  let enterprise_value := pv_forecast_period + pv_terminal_value in
  Ok (mkValuation projected_revenues ebits nopats fcfs discount_factors
                  pv_fcfs terminal_value pv_terminal_value
                  pv_forecast_period enterprise_value).

(** ** The sweep of [valuation_dashboard.py]

    The sweep of the script: the loops of [sensitivity_analysis], on the
    cash flows the script computed above. *)
Definition dashboard_sweep (fcfs : list Q) (wacc_range tg_range : list Q)
  : res matrix :=
  let sensitivity_matrix := np_zeros (length tg_range) (length wacc_range) in
  for_each
    (fun sensitivity_matrix itg =>
       for_each
         (fun sensitivity_matrix jw =>
            let temp_discount_factors :=
              List.map
                (fun year => np_div (Fin 1) (Fin ((1 + snd jw) ^ year)))
                (py_range 1 6) in
            let temp_pv_fcfs :=
              List.map (fun p => np_mul (Fin (fst p)) (snd p))
                       (List.combine fcfs temp_discount_factors) in
            let! final_fcf := py_last fcfs in
            let temp_terminal_value :=
              np_div (Fin (final_fcf * (1 + snd itg)))
                     (Fin (snd jw - snd itg)) in
            let temp_pv_terminal :=
              np_mul temp_terminal_value
                     (List.last temp_discount_factors NaN) in
            Ok (matrix_set sensitivity_matrix (fst itg) (fst jw)
                  (np_add (np_sum temp_pv_fcfs) temp_pv_terminal)))
         (enumerate wacc_range) sensitivity_matrix)
    (enumerate tg_range) sensitivity_matrix.

(** ** Sidebar inputs: [utils/inputs.py]

    The values the widgets of the sidebar return are the state the function
    reads.  A slider or number input returns a value between its
    [min_value] and its [max_value]. *)
Record Sidebar : Type := mkSidebar {
  revenue_input : Q;
  growth_slider : Z -> Q;
  margin_slider : Q;
  tax_slider : Q;
  wacc_slider : Q;
  terminal_growth_slider : Q;
  conversion_slider : Q
}.

Definition within_widget_bounds (ui : Sidebar) : Prop :=
  (1 <= revenue_input ui /\ revenue_input ui <= 10000)
  /\ (forall year, 0 <= growth_slider ui year /\ growth_slider ui year <= 30)
  /\ (10 <= margin_slider ui /\ margin_slider ui <= 40)
  /\ (15 <= tax_slider ui /\ tax_slider ui <= 35)
  /\ (5 <= wacc_slider ui /\ wacc_slider ui <= 15)
  /\ (1 <= terminal_growth_slider ui /\ terminal_growth_slider ui <= 5)
  /\ (60 <= conversion_slider ui /\ conversion_slider ui <= 100).

(** [collect_user_inputs]: the percentages are divided by the literal
    [100], which cannot raise. *)
Definition collect_user_inputs (ui : Sidebar) : DCFModel :=
  let current_revenue := revenue_input ui in
  let growth_rates :=
    fold_left
      (fun growth_rates year => growth_rates ++ [growth_slider ui year / 100])
      (py_range 1 6) [] in
  let ebit_margin := margin_slider ui / 100 in
  let tax_rate := tax_slider ui / 100 in
  let wacc := wacc_slider ui / 100 in
  let terminal_growth := terminal_growth_slider ui / 100 in
  let fcf_conversion := conversion_slider ui / 100 in
  mkDCFModel current_revenue growth_rates ebit_margin tax_rate wacc
             terminal_growth fcf_conversion.

(** ** The axes of the sweep in [app.py]

    [np.linspace(start, stop, num)] with its default end point: [num]
    evenly spaced values from [start] to [stop]. *)
Definition np_linspace (start stop : Q) (num : nat) : list Q :=
  match num with
  | O => []
  | S O => [start]
  | S div =>
      List.map
        (fun i => start + inject_Z (Z.of_nat i)
                          * ((stop - start) / inject_Z (Z.of_nat div)))
        (List.seq 0 num)
  end.

Definition app_wacc_range : list Q := np_linspace (6 # 100) (14 # 100) 9.
Definition app_tg_range : list Q := np_linspace (2 # 100) (5 # 100) 7.

(** The record with the growth rate of one year replaced. *)
Definition with_growth_at (self : DCFModel) (j : nat) (g : Q) : DCFModel :=
  with_growth_rates self (<[j := g]> (growth_rates self)).

(** ** Closed forms used by the statements *)

(** The discount factor of one year. *)
Definition year_factor (w : Q) (year : Z) : Q := 1 / (1 + w) ^ year.

(** The five factors of [range(1, 6)]. *)
Definition five_factors (w : Q) : list Q :=
  List.map (year_factor w) [1; 2; 3; 4; 5]%Z.

(** The projected cash flows: the four calls that open both
    [run_valuation] and [sensitivity_analysis]. *)
Definition projected_fcfs (self : DCFModel) : list Q :=
  calculate_fcf self
    (calculate_nopat self (calculate_ebit self (project_revenue self))).

(** Revenue compounded from a previous year's revenue. *)
Fixpoint compound (prev : Q) (growths : list Q) : list Q :=
  match growths with
  | [] => []
  | growth :: growths' =>
      prev * (1 + growth) :: compound (prev * (1 + growth)) growths'
  end.

(** The record [run_valuation] returns when nothing raises, given the last
    projected cash flow. *)
Definition valuation_of (self : DCFModel) (final_fcf : Q) : Valuation :=
  let revenues := project_revenue self in
  let ebits := calculate_ebit self revenues in
  let nopats := calculate_nopat self ebits in
  let fcfs := calculate_fcf self nopats in
  let dfs := five_factors (wacc self) in
  let tv :=
    final_fcf * (1 + terminal_growth self)
    / (wacc self - terminal_growth self) in
  let pv_tv := tv * year_factor (wacc self) 5 in
  mkValuation revenues ebits nopats fcfs dfs (zip_mul fcfs dfs) tv pv_tv
              (py_sum (zip_mul fcfs dfs))
              (py_sum (zip_mul fcfs dfs) + pv_tv).

(** The enterprise value as a function of the projected cash flows and of
    the two rates, when no division is by zero. *)
Definition value_of_rates (fcfs : list Q) (g w : Q) : Q :=
  py_sum (zip_mul fcfs (five_factors w))
  + List.last fcfs 0 * (1 + g) / (w - g) * year_factor w 5.

(** The value the inner loop of the sweep assigns to a cell when there is a
    last cash flow. *)
Definition cell_value (fcfs : list Q) (tg w : Q) : float64 :=
  let dfs :=
    List.map (fun year => np_div (Fin 1) (Fin ((1 + w) ^ year)))
             (py_range 1 6) in
  np_add
    (np_sum (List.map (fun p => np_mul (Fin (fst p)) (snd p))
                      (List.combine fcfs dfs)))
    (np_mul (np_div (Fin (List.last fcfs 0 * (1 + tg))) (Fin (w - tg)))
            (List.last dfs NaN)).

(** The whole grid: one row per growth rate, one column per rate. *)
Definition grid_of (fcfs : list Q) (wacc_range tg_range : list Q) : matrix :=
  (fun tg => cell_value fcfs tg <$> wacc_range) <$> tg_range.

(** The record that differs from [self] in the two swept rates only. *)
Definition with_rates (self : DCFModel) (w g : Q) : DCFModel :=
  mkDCFModel (current_revenue self) (growth_rates self) (ebit_margin self)
             (tax_rate self) w g (fcf_conversion self).

(** The validity conditions under which monotonicity is claimed. *)
Definition valid_assumptions (self : DCFModel) : Prop :=
  0 < current_revenue self
  /\ 0 < ebit_margin self
  /\ 0 < fcf_conversion self
  /\ 0 <= tax_rate self
  /\ tax_rate self < 1
  /\ terminal_growth self < wacc self.

(** The scenario with a first-year growth rate of -100%. *)
Definition total_decline : DCFModel :=
  with_growth_rates scenario [-1; 12 # 100; 10 # 100; 8 # 100; 6 # 100].

(** The scenario with both rates below -100%. *)
Definition rates_below_minus_one : DCFModel :=
  with_rates scenario (-3) (-4).

Definition is_finite (x : float64) : Prop := exists q, x = Fin q.

(** The revenue reached after compounding a start value through a list of
    growth rates. *)
Definition compounded (start : Q) (growths : list Q) : Q :=
  fold_left (fun acc growth => acc * (1 + growth)) growths start.

(** ** Basic facts *)

Lemma py_div_ok (a b : Q) : ~ b == 0 -> py_div a b = Ok (a / b).
Proof.
  intros Hb. unfold py_div.
  destruct (Qeq_bool b 0) eqn:E; [|reflexivity].
  apply Qeq_bool_eq in E. contradiction.
Qed.

Lemma py_div_zero (a b : Q) : b == 0 -> py_div a b = Raise ZeroDivisionError.
Proof.
  intros Hb. unfold py_div. now rewrite (Qeq_eq_bool _ _ Hb).
Qed.

Lemma py_div_inv (a b v : Q) : py_div a b = Ok v -> ~ b == 0 /\ v = a / b.
Proof.
  unfold py_div. destruct (Qeq_bool b 0) eqn:E; [discriminate|].
  intros [= <-]. split; [now apply Qeq_bool_neq|reflexivity].
Qed.

Lemma last_default_irrelevant (l : list Q) (z d d' : Q) :
  List.last (z :: l) d = List.last (z :: l) d'.
Proof.
  revert z. induction l as [|y l IH]; intros z; [reflexivity|].
  change (List.last (y :: l) d = List.last (y :: l) d'). apply IH.
Qed.

Lemma last_cons_default (l : list Q) (y d : Q) :
  List.last (y :: l) d = List.last l y.
Proof.
  destruct l as [|z l]; [reflexivity|].
  change (List.last (z :: l) d = List.last (z :: l) y).
  apply last_default_irrelevant.
Qed.

Lemma lookup_last_cons (l : list Q) (y : Q) :
  (y :: l) !! length l = Some (List.last l y).
Proof.
  revert y. induction l as [|z l IH]; intros y; [reflexivity|].
  cbn [length]. change ((y :: z :: l) !! S (length l))
    with ((z :: l) !! length l).
  rewrite IH. f_equal. symmetry. apply last_cons_default.
Qed.

Lemma Qinv_lt_0_neg (x : Q) : x < 0 -> / x < 0.
Proof.
  intros Hx.
  assert (Hpos : 0 < / - x) by (apply Qinv_lt_0_compat; lra).
  assert (E : / - x == - / x) by (field; lra).
  rewrite E in Hpos. lra.
Qed.

Lemma py_last_lookup (l : list Q) (x : Q) :
  py_last l = Ok x <-> l !! (length l - 1)%nat = Some x.
Proof.
  destruct l as [|y l]; cbn [py_last length]; [split; discriminate|].
  replace (S (length l) - 1)%nat with (length l) by lia.
  rewrite lookup_last_cons. split; congruence.
Qed.

Lemma py_last_inv (l : list Q) (x : Q) :
  py_last l = Ok x -> List.last l 0 = x.
Proof.
  destruct l as [|y l]; [discriminate|]. cbn [py_last]. intros [= <-].
  apply last_cons_default.
Qed.

Lemma py_last_nil_iff (l : list Q) : py_last l = Raise IndexError <-> l = [].
Proof. destruct l; simpl; split; congruence. Qed.

Lemma py_last_ok (l : list Q) : l <> [] -> exists x, py_last l = Ok x.
Proof. destruct l; [congruence|]. intros _. simpl. eauto. Qed.

(** *** Projection *)

Lemma project_revenue_loop_compound (revs growths : list Q) :
  revs <> [] ->
  project_revenue_loop revs growths
  = revs ++ compound (List.last revs 0) growths.
Proof.
  unfold project_revenue_loop.
  revert revs. induction growths as [|g growths IH]; intros revs Hne; simpl.
  - now rewrite app_nil_r.
  - rewrite IH by (now destruct revs).
    rewrite List.last_last, <- app_assoc. reflexivity.
Qed.

Lemma project_revenue_compound (self : DCFModel) :
  project_revenue self = compound (current_revenue self) (growth_rates self).
Proof.
  unfold project_revenue.
  rewrite project_revenue_loop_compound by discriminate. reflexivity.
Qed.

Lemma length_compound (prev : Q) (growths : list Q) :
  length (compound prev growths) = length growths.
Proof.
  revert prev. induction growths; intros prev; simpl; [|rewrite IHgrowths];
    reflexivity.
Qed.

Lemma compound_step (prev : Q) (growths : list Q) (i : nat) (g : Q) :
  growths !! i = Some g ->
  exists before,
    (prev :: compound prev growths) !! i = Some before
    /\ compound prev growths !! i = Some (before * (1 + g)).
Proof.
  revert prev i. induction growths as [|g0 growths IH]; intros prev i Hi.
  - destruct i; discriminate.
  - destruct i as [|i]; simpl in *.
    + injection Hi as ->. eauto.
    + exact (IH _ _ Hi).
Qed.

Lemma length_projected_fcfs (self : DCFModel) :
  length (projected_fcfs self) = length (growth_rates self).
Proof.
  unfold projected_fcfs, calculate_fcf, calculate_nopat, calculate_ebit.
  rewrite !length_map, project_revenue_compound. apply length_compound.
Qed.

Lemma projected_fcfs_nil_iff (self : DCFModel) :
  projected_fcfs self = [] <-> growth_rates self = [].
Proof.
  pose proof (length_projected_fcfs self) as H.
  destruct (projected_fcfs self), (growth_rates self); simpl in H;
    split; congruence.
Qed.

(** *** Discount factors *)

Lemma calculate_discount_factors_ok (self : DCFModel) :
  ~ 1 + wacc self == 0 ->
  calculate_discount_factors self = Ok (five_factors (wacc self)).
Proof.
  intros Hw. unfold calculate_discount_factors, five_factors, year_factor.
  change (py_range 1 6) with [1; 2; 3; 4; 5]%Z.
  cbn [comprehension List.map].
  rewrite !py_div_ok by (now apply Qpower_not_0).
  reflexivity.
Qed.

Lemma calculate_discount_factors_zero (self : DCFModel) :
  1 + wacc self == 0 ->
  calculate_discount_factors self = Raise ZeroDivisionError.
Proof.
  intros Hw. unfold calculate_discount_factors.
  change (py_range 1 6) with [1; 2; 3; 4; 5]%Z.
  cbn [comprehension].
  rewrite py_div_zero; [reflexivity|].
  change ((1 + wacc self) ^ 1) with (1 + wacc self). exact Hw.
Qed.

(** *** The base valuation, case by case *)

Lemma run_valuation_ok (self : DCFModel) :
  growth_rates self <> [] ->
  ~ 1 + wacc self == 0 ->
  ~ wacc self == terminal_growth self ->
  exists final_fcf,
    py_last (projected_fcfs self) = Ok final_fcf
    /\ run_valuation self = Ok (valuation_of self final_fcf).
Proof.
  intros Hg Hw Hwg.
  destruct (py_last_ok (projected_fcfs self)) as [f Hf].
  { now rewrite projected_fcfs_nil_iff. }
  exists f. split; [exact Hf|].
  unfold run_valuation.
  rewrite (calculate_discount_factors_ok self Hw). cbn [bind].
  unfold projected_fcfs in Hf. rewrite Hf. cbn [bind].
  unfold calculate_terminal_value.
  rewrite py_div_ok by (intros E; apply Hwg; lra). cbn [bind].
  reflexivity.
Qed.

Lemma run_valuation_inv (self : DCFModel) (r : Valuation) :
  run_valuation self = Ok r ->
  growth_rates self <> []
  /\ ~ 1 + wacc self == 0
  /\ ~ wacc self == terminal_growth self
  /\ exists final_fcf,
       py_last (projected_fcfs self) = Ok final_fcf
       /\ r = valuation_of self final_fcf.
Proof.
  intros Hr.
  destruct (Qeq_dec (1 + wacc self) 0) as [Hw|Hw].
  { unfold run_valuation in Hr.
    rewrite (calculate_discount_factors_zero self Hw) in Hr. discriminate. }
  destruct (growth_rates self) as [|g gs] eqn:Hg.
  { unfold run_valuation in Hr.
    rewrite (calculate_discount_factors_ok self Hw) in Hr. cbn [bind] in Hr.
    assert (Hnil : projected_fcfs self = []) by
      (now apply projected_fcfs_nil_iff).
    unfold projected_fcfs in Hnil. rewrite Hnil in Hr. discriminate. }
  destruct (Qeq_dec (wacc self) (terminal_growth self)) as [Hwg|Hwg].
  { unfold run_valuation in Hr.
    rewrite (calculate_discount_factors_ok self Hw) in Hr. cbn [bind] in Hr.
    destruct (py_last _) as [f|] in Hr; [|discriminate]. cbn [bind] in Hr.
    unfold calculate_terminal_value in Hr.
    rewrite py_div_zero in Hr by lra. discriminate. }
  destruct (run_valuation_ok self) as (f & Hf & Hok); auto.
  { rewrite Hg. discriminate. }
  split; [discriminate|]. split; [exact Hw|]. split; [exact Hwg|].
  exists f. split; [exact Hf|]. congruence.
Qed.

Lemma run_valuation_minus_one (self : DCFModel) :
  1 + wacc self == 0 -> run_valuation self = Raise ZeroDivisionError.
Proof.
  intros Hw. unfold run_valuation.
  now rewrite (calculate_discount_factors_zero self Hw).
Qed.

Lemma run_valuation_equal_rates (self : DCFModel) :
  growth_rates self <> [] -> ~ 1 + wacc self == 0 ->
  wacc self == terminal_growth self ->
  run_valuation self = Raise ZeroDivisionError.
Proof.
  intros Hg Hw Hwg. unfold run_valuation.
  rewrite (calculate_discount_factors_ok self Hw). cbn [bind].
  destruct (py_last_ok (projected_fcfs self)) as [f Hf].
  { now rewrite projected_fcfs_nil_iff. }
  unfold projected_fcfs in Hf. rewrite Hf. cbn [bind].
  unfold calculate_terminal_value. rewrite py_div_zero by lra. reflexivity.
Qed.

Lemma run_valuation_growth_nil (self : DCFModel) :
  growth_rates self = [] -> ~ 1 + wacc self == 0 ->
  run_valuation self = Raise IndexError.
Proof.
  intros Hg Hw. unfold run_valuation.
  rewrite (calculate_discount_factors_ok self Hw). cbn [bind].
  apply projected_fcfs_nil_iff in Hg. unfold projected_fcfs in Hg.
  now rewrite Hg.
Qed.

Lemma run_valuation_rate_eq_growth (self : DCFModel) :
  wacc self == terminal_growth self -> fails (run_valuation self).
Proof.
  intros Hwg. destruct (run_valuation self) as [r|e] eqn:Hr.
  - apply run_valuation_inv in Hr. tauto.
  - now exists e.
Qed.

Lemma lookup_zip_mul (l1 l2 : list Q) (i : nat) :
  zip_mul l1 l2 !! i
  = match l1 !! i, l2 !! i with
    | Some a, Some b => Some (a * b)
    | _, _ => None
    end.
Proof.
  unfold zip_mul. revert l2 i.
  induction l1 as [|a l1 IH]; intros l2 i; [reflexivity|].
  destruct l2 as [|b l2]; cbn [List.combine List.map].
  - destruct i; cbn; [reflexivity|]. now destruct (l1 !! i).
  - destruct i as [|i]; [reflexivity|]. exact (IH l2 i).
Qed.

Lemma length_zip_mul (l1 l2 : list Q) :
  length (zip_mul l1 l2) = Nat.min (length l1) (length l2).
Proof. unfold zip_mul. now rewrite length_map, List.length_combine. Qed.

Lemma fold_left_enumerate {A B : Type} (f : B -> A -> B) (l : list A)
  (k : nat) (b : B) :
  fold_left (fun acc ix => f acc (snd ix))
            (List.combine (List.seq k (length l)) l) b
  = fold_left f l b.
Proof.
  revert k b. induction l as [|x l IH]; intros k b; [reflexivity|].
  cbn. apply IH.
Qed.

(** ** C1: terminal value *)

(** C1, as amended.  [calculate_terminal_value] has no guard on the order of
    the two rates: it raises [ZeroDivisionError] exactly when the discount
    rate equals the terminal growth rate, and for every other pair, a rate
    below the growth rate included, it returns
    [final_fcf * (1 + terminal_growth) / (rate - terminal_growth)], which is
    negative when the rate is below the growth rate and the numerator is
    positive. *)
Theorem terminal_value_cases (self : DCFModel) (final_fcf : Q) :
  (wacc self == terminal_growth self ->
   calculate_terminal_value self final_fcf = Raise ZeroDivisionError)
  /\ (~ wacc self == terminal_growth self ->
      calculate_terminal_value self final_fcf
      = Ok (final_fcf * (1 + terminal_growth self)
            / (wacc self - terminal_growth self)))
  /\ (wacc self < terminal_growth self ->
      0 < final_fcf * (1 + terminal_growth self) ->
      exists v, calculate_terminal_value self final_fcf = Ok v /\ v < 0).
Proof.
  unfold calculate_terminal_value. split; [|split].
  - intros H. apply py_div_zero. lra.
  - intros H. apply py_div_ok. intros E. apply H. lra.
  - intros Hlt Hnum. eexists. split.
    + apply py_div_ok. lra.
    + unfold Qdiv.
      assert (Hinv : / (wacc self - terminal_growth self) < 0).
      { apply Qinv_lt_0_neg. lra. }
      nra.
Qed.

Lemma terminal_value_cases_witness :
  calculate_terminal_value (with_wacc scenario (3 # 100)) 20
  = Raise ZeroDivisionError
  /\ calculate_terminal_value scenario 20
     = Ok (20 * (1 + (3 # 100)) / ((10 # 100) - (3 # 100)))
  /\ exists v,
       calculate_terminal_value (with_wacc scenario (2 # 100)) 20 = Ok v
       /\ v < 0.
Proof.
  split; [|split].
  - apply (proj1 (terminal_value_cases (with_wacc scenario (3 # 100)) 20)).
    reflexivity.
  - apply (proj1 (proj2 (terminal_value_cases scenario 20))).
    vm_compute. discriminate.
  - apply (proj2 (proj2 (terminal_value_cases
                           (with_wacc scenario (2 # 100)) 20)));
      vm_compute; reflexivity.
Defined.

(** C1, the claim as stated fails: with the rate (2%) below the growth rate
    (3%) the computation does not fail, it returns -2060. *)
Lemma terminal_value_below_growth_returns :
  wacc (with_wacc scenario (2 # 100))
  <= terminal_growth (with_wacc scenario (2 # 100))
  /\ ~ fails (calculate_terminal_value (with_wacc scenario (2 # 100)) 20)
  /\ exists v,
       calculate_terminal_value (with_wacc scenario (2 # 100)) 20 = Ok v
       /\ v == -2060.
Proof.
  split; [vm_compute; discriminate|]. split.
  - intros [e He]. vm_compute in He. discriminate.
  - eexists. split; [vm_compute; reflexivity|]. reflexivity.
Qed.

(** ** C2: the enterprise value is the sum of its two parts *)



(** ** C7: projection *)

(** C7.  For five growth rates the projected revenue series has five
    entries; entry [i] is the entry before it (the current revenue for the
    first) times [1 + growth_rates[i]]; and EBIT, NOPAT and FCF are the
    element-wise products with the margin, with [1 - tax_rate] and with the
    conversion rate. *)
Theorem projection_series (self : DCFModel) :
  length (growth_rates self) = 5%nat ->
  let revenue := project_revenue self in
  let ebit := calculate_ebit self revenue in
  let nopat := calculate_nopat self ebit in
  let fcf := calculate_fcf self nopat in
  length revenue = 5%nat
  /\ (forall i g, growth_rates self !! i = Some g ->
      exists before,
        (current_revenue self :: revenue) !! i = Some before
        /\ revenue !! i = Some (before * (1 + g)))
  /\ (forall i, ebit !! i
                = (fun rev => rev * ebit_margin self) <$> revenue !! i)
  /\ (forall i, nopat !! i
                = (fun e => e * (1 - tax_rate self)) <$> ebit !! i)
  /\ (forall i, fcf !! i
                = (fun n => n * fcf_conversion self) <$> nopat !! i)
  /\ (forall r, run_valuation self = Ok r ->
      revenues r = revenue /\ ebits r = ebit /\ nopats r = nopat
      /\ fcfs r = fcf).
Proof.
  intros Hlen. cbn zeta.
  split; [now rewrite project_revenue_compound, length_compound|].
  split.
  { rewrite project_revenue_compound. intros i g. apply compound_step. }
  unfold calculate_ebit, calculate_nopat, calculate_fcf.
  split; [intros i; apply (list_lookup_fmap _ _ i)|].
  split; [intros i; apply (list_lookup_fmap _ _ i)|].
  split; [intros i; apply (list_lookup_fmap _ _ i)|].
  intros r Hr. apply run_valuation_inv in Hr as (_ & _ & _ & f & _ & ->).
  repeat split.
Qed.

Lemma projection_series_witness :
  length (project_revenue scenario) = 5%nat
  /\ project_revenue scenario !! 0%nat = Some (100 * (1 + (15 # 100))).
Proof.
  destruct (projection_series scenario eq_refl) as (Hlen & Hstep & _).
  split; [exact Hlen|].
  destruct (Hstep 0%nat (15 # 100) eq_refl) as (before & Hb & Hr).
  injection Hb as <-. exact Hr.
Defined.

(** ** C10: the number of growth rates is not checked *)




(** ** C9: the two implementations agree *)

(** C9.  On the same seven assumption values the inline computation of
    [valuation_dashboard.py] and [DCFModel.run_valuation] give the same
    outcome: the same exception, or records with the same revenue, EBIT,
    NOPAT, FCF, discount-factor and present-value series, the same terminal
    value and present value of it, and the same enterprise value. *)
Theorem dashboard_agrees_with_model (self : DCFModel) :
  dashboard_dcf (current_revenue self) (growth_rates self)
                (ebit_margin self) (tax_rate self) (wacc self)
                (terminal_growth self) (fcf_conversion self)
  = run_valuation self.
Proof.
  unfold dashboard_dcf, run_valuation, enumerate.
  rewrite (fold_left_enumerate
             (fun revs growth => revs ++ [List.last revs 0 * (1 + growth)])).
  reflexivity.
Qed.

(** ** C5 and C6: the WACC sensitivity *)

Lemma calculate_wacc_sensitivity_inv (self : DCFModel) (s b : Q) :
  calculate_wacc_sensitivity self = Ok (s, b) ->
  exists r rp rm,
    run_valuation self = Ok r
    /\ run_valuation (with_wacc self (wacc self + one_point)) = Ok rp
    /\ run_valuation (with_wacc self (wacc self - one_point)) = Ok rm
    /\ ~ 2 * enterprise_value r == 0
    /\ b = enterprise_value r
    /\ s = (enterprise_value rm - enterprise_value rp)
           / (2 * enterprise_value r).
Proof.
  unfold calculate_wacc_sensitivity. intros H.
  destruct (run_valuation self) as [r|] eqn:Hr; [|discriminate].
  cbn [bind] in H.
  destruct (run_valuation (with_wacc self (wacc self + one_point)))
    as [rp|] eqn:Hp; [|discriminate].
  cbn [bind] in H.
  destruct (run_valuation (with_wacc self (wacc self - one_point)))
    as [rm|] eqn:Hm; [|discriminate].
  cbn [bind] in H.
  destruct (py_div _ _) as [v|] eqn:Hs in H; [|discriminate].
  cbn [bind] in H. injection H as <- <-.
  apply py_div_inv in Hs as [Hnz ->].
  exists r, rp, rm. repeat split; assumption.
Qed.

(** C5.  When [calculate_wacc_sensitivity] returns, it returns the pair of
    [(ev_minus - ev_plus) / (2 * base_ev)] and [base_ev], the three
    enterprise values being those of [run_valuation] on the record itself
    and on the records that differ from it in [wacc] only, by [+0.01] and
    [-0.01]. *)
Theorem wacc_sensitivity_value (self : DCFModel) (sensitivity base_ev : Q) :
  calculate_wacc_sensitivity self = Ok (sensitivity, base_ev) ->
  exists r r_plus r_minus model_plus model_minus,
    model_plus
    = mkDCFModel (current_revenue self) (growth_rates self)
                 (ebit_margin self) (tax_rate self)
                 (wacc self + (1 # 100))
                 (terminal_growth self) (fcf_conversion self)
    /\ model_minus
       = mkDCFModel (current_revenue self) (growth_rates self)
                    (ebit_margin self) (tax_rate self)
                    (wacc self - (1 # 100))
                    (terminal_growth self) (fcf_conversion self)
    /\ run_valuation self = Ok r
    /\ run_valuation model_plus = Ok r_plus
    /\ run_valuation model_minus = Ok r_minus
    /\ base_ev = enterprise_value r
    /\ sensitivity
       = (enterprise_value r_minus - enterprise_value r_plus)
         / (2 * enterprise_value r).
Proof.
  intros H.
  apply calculate_wacc_sensitivity_inv in H
    as (r & rp & rm & Hr & Hp & Hm & _ & Hb & Hs).
  exists r, rp, rm. eexists. eexists.
  split; [reflexivity|]. split; [reflexivity|].
  repeat split; assumption.
Qed.

Lemma wacc_sensitivity_value_witness :
  exists sensitivity base_ev r r_plus r_minus,
    calculate_wacc_sensitivity scenario = Ok (sensitivity, base_ev)
    /\ run_valuation scenario = Ok r
    /\ run_valuation (with_wacc scenario ((10 # 100) + (1 # 100)))
       = Ok r_plus
    /\ run_valuation (with_wacc scenario ((10 # 100) - (1 # 100)))
       = Ok r_minus
    /\ base_ev = enterprise_value r
    /\ sensitivity
       = (enterprise_value r_minus - enterprise_value r_plus)
         / (2 * enterprise_value r).
Proof.
  destruct (calculate_wacc_sensitivity scenario) as [[s b]|e] eqn:E;
    [|vm_compute in E; discriminate].
  destruct (wacc_sensitivity_value scenario s b E)
    as (r & rp & rm & mp & mm & -> & -> & Hr & Hp & Hm & Hb & Hs).
  exists s, b, r, rp, rm.
  split; [reflexivity|]. split; [exact Hr|]. split; [exact Hp|].
  split; [exact Hm|]. split; [exact Hb|exact Hs].
Defined.

(** C6, as amended.  [calculate_wacc_sensitivity] has no check on the
    perturbed rates.  It fails exactly when one of the three valuations it
    runs fails (on the record, on the record at [wacc + 0.01] and on the
    record at [wacc - 0.01]) or the base enterprise value is zero; and a
    valuation fails whenever the rate it is given equals the terminal
    growth rate.  A perturbed rate below the terminal growth rate is
    therefore no cause of failure. *)
Theorem wacc_sensitivity_failure_cases (self : DCFModel) :
  (fails (calculate_wacc_sensitivity self)
   <-> fails (run_valuation self)
       \/ fails (run_valuation (with_wacc self (wacc self + (1 # 100))))
       \/ fails (run_valuation (with_wacc self (wacc self - (1 # 100))))
       \/ exists r, run_valuation self = Ok r /\ enterprise_value r == 0)
  /\ (forall model : DCFModel,
        wacc model == terminal_growth model -> fails (run_valuation model)).
Proof.
  split; [|exact run_valuation_rate_eq_growth].
  unfold calculate_wacc_sensitivity.
  change one_point with (1 # 100).
  destruct (run_valuation self) as [r|e] eqn:Hr; cbn [bind].
  2:{ split; [intros _; left; now exists e|intros _; now exists e]. }
  destruct (run_valuation (with_wacc self (wacc self + (1 # 100))))
    as [rp|ep] eqn:Hp; cbn [bind].
  2:{ split; [intros _; right; left; now exists ep|intros _; now exists ep]. }
  destruct (run_valuation (with_wacc self (wacc self - (1 # 100))))
    as [rm|em] eqn:Hm; cbn [bind].
  2:{ split; [intros _; right; right; left; now exists em|].
      intros _. now exists em. }
  unfold py_div.
  destruct (Qeq_bool (2 * enterprise_value r) 0) eqn:E; cbn [bind].
  - apply Qeq_bool_eq in E. split.
    + intros _. right. right. right. exists r. split; [reflexivity|lra].
    + intros _. now exists ZeroDivisionError.
  - apply Qeq_bool_neq in E. split.
    + intros [e He]. discriminate.
    + intros [[e He]|[[e He]|[[e He]|(r' & Hr' & Hz)]]]; try discriminate.
      injection Hr' as <-. exfalso. apply E. lra.
Qed.

Lemma wacc_sensitivity_failure_cases_witness :
  fails (calculate_wacc_sensitivity (with_wacc scenario (3 # 100))).
Proof.
  destruct (wacc_sensitivity_failure_cases (with_wacc scenario (3 # 100)))
    as [Hiff Heq].
  apply (proj2 Hiff). left. apply Heq. reflexivity.
Defined.

(** C6, the claim as stated fails: with [wacc] 3.5% and a terminal growth
    of 3%, [wacc - 0.01] is below the growth rate and the operation returns
    a numeric pair. *)
Lemma wacc_sensitivity_crossed_rate_returns :
  wacc (with_wacc scenario (35 # 1000)) - (1 # 100)
  <= terminal_growth (with_wacc scenario (35 # 1000))
  /\ ~ fails (calculate_wacc_sensitivity (with_wacc scenario (35 # 1000)))
  /\ exists sensitivity base_ev,
       calculate_wacc_sensitivity (with_wacc scenario (35 # 1000))
       = Ok (sensitivity, base_ev).
Proof.
  split; [vm_compute; discriminate|]. split.
  - intros [e He]. vm_compute in He. discriminate.
  - destruct (calculate_wacc_sensitivity (with_wacc scenario (35 # 1000)))
      as [[s b]|e] eqn:E; [eauto|]. vm_compute in E. discriminate.
Qed.

(** ** The sensitivity sweep *)

(** *** One cell *)

Lemma sweep_cell_ok (fcfs : list Q) (tg w : Q) :
  fcfs <> [] -> sweep_cell fcfs tg w = Ok (cell_value fcfs tg w).
Proof.
  destruct fcfs as [|x l]; [congruence|]. intros _.
  unfold sweep_cell, cell_value. cbn [py_last bind].
  now rewrite last_cons_default.
Qed.

Lemma sweep_cell_nil (tg w : Q) : sweep_cell [] tg w = Raise IndexError.
Proof. reflexivity. Qed.

Lemma np_sum_finite (l : list Q) (a : Q) :
  fold_left np_add (List.map Fin l) (Fin a) = Fin (fold_left Qplus l a).
Proof.
  revert a. induction l as [|x l IH]; intros a; [reflexivity|].
  cbn. apply IH.
Qed.

Lemma pv_products_finite (fcfs dfs : list Q) :
  List.map (fun p => np_mul (Fin (fst p)) (snd p))
           (List.combine fcfs (List.map Fin dfs))
  = List.map Fin (zip_mul fcfs dfs).
Proof.
  unfold zip_mul. revert dfs.
  induction fcfs as [|x fcfs IH]; intros dfs; [reflexivity|].
  destruct dfs as [|d dfs]; [reflexivity|].
  cbn. f_equal. apply IH.
Qed.

Lemma np_div_finite (a b : Q) : ~ b == 0 -> np_div (Fin a) (Fin b) = Fin (a / b).
Proof.
  intros Hb. unfold np_div.
  destruct (Qeq_bool b 0) eqn:E; [|reflexivity].
  apply Qeq_bool_eq in E. contradiction.
Qed.

Lemma sweep_factors_finite (w : Q) :
  ~ 1 + w == 0 ->
  List.map (fun year => np_div (Fin 1) (Fin ((1 + w) ^ year))) (py_range 1 6)
  = List.map Fin (five_factors w).
Proof.
  intros Hw. change (py_range 1 6) with [1; 2; 3; 4; 5]%Z.
  unfold five_factors, year_factor. cbn [List.map].
  rewrite !np_div_finite by (now apply Qpower_not_0). reflexivity.
Qed.

(** Away from the two zero denominators a cell holds the enterprise value
    [run_valuation] computes for the same pair of rates. *)
Lemma cell_value_is_valuation (self : DCFModel) (g w : Q) :
  growth_rates self <> [] -> ~ 1 + w == 0 -> ~ w == g ->
  exists r,
    run_valuation (with_rates self w g) = Ok r
    /\ cell_value (projected_fcfs self) g w = Fin (enterprise_value r).
Proof.
  intros Hg Hw Hwg.
  destruct (run_valuation_ok (with_rates self w g)) as (f & Hf & Hok); auto.
  exists (valuation_of (with_rates self w g) f). split; [exact Hok|].
  change (projected_fcfs (with_rates self w g)) with (projected_fcfs self)
    in Hf.
  unfold cell_value.
  rewrite (sweep_factors_finite w Hw), pv_products_finite.
  unfold np_sum. rewrite np_sum_finite.
  rewrite np_div_finite by (intros E; apply Hwg; lra).
  rewrite (py_last_inv _ _ Hf).
  reflexivity.
Qed.

Lemma np_mul_not_finite_l (a b : float64) :
  ~ is_finite a -> ~ is_finite (np_mul a b).
Proof.
  intros Ha [q Hq]. destruct a as [x| | |]; [apply Ha; now exists x| | |];
    destruct b as [y| | |]; cbn in Hq; try discriminate;
    match type of Hq with
    | signed_inf ?c = _ => destruct c; discriminate
    end.
Qed.

Lemma np_add_not_finite_r (a b : float64) :
  ~ is_finite b -> ~ is_finite (np_add a b).
Proof.
  intros Hb [q Hq]. destruct b as [y| | |]; [apply Hb; now exists y| | |];
    destruct a; cbn in Hq; discriminate.
Qed.

(** With the rate equal to the growth rate the division by zero leaves an
    infinity or a not-a-number in the cell. *)
Lemma cell_value_rate_eq_growth (fcfs : list Q) (g w : Q) :
  w == g -> ~ is_finite (cell_value fcfs g w).
Proof.
  intros Hwg. unfold cell_value.
  apply np_add_not_finite_r, np_mul_not_finite_l.
  unfold np_div. rewrite (Qeq_eq_bool (w - g) 0) by lra.
  intros [q Hq]. destruct (_ ?= _); discriminate.
Qed.

(** *** The two loops *)

Lemma insert_alter_same {A : Type} (f : A -> A) (l : list A) (i : nat)
  (x : A) :
  <[i := x]> (alter f i l) = <[i := x]> l.
Proof.
  revert i. induction l as [|y l IH]; intros i; [reflexivity|].
  destruct i as [|i]; [reflexivity|]. cbn. f_equal. apply IH.
Qed.

Section Loops.

Variable fcfs : list Q.
Hypothesis fcfs_not_empty : fcfs <> [].

(** The inner loop over the columns [k, k+1, ...] of row [i] overwrites
    them with the cells of the remaining rates. *)
Lemma inner_loop_fills_row (tg : Q) (i : nat) (ws : list Q) :
  forall (k : nat) (m : matrix) (row : list float64),
    m !! i = Some row ->
    length row = (k + length ws)%nat ->
    for_each
      (fun m jw =>
         let! v := sweep_cell fcfs tg (snd jw) in
         Ok (matrix_set m i (fst jw) v))
      (List.combine (List.seq k (length ws)) ws) m
    = Ok (<[i := take k row ++ (cell_value fcfs tg <$> ws)]> m).
Proof.
  induction ws as [|w ws IH]; intros k m row Hrow Hlen.
  - cbn [length List.seq List.combine for_each fmap list_fmap].
    cbn [length] in Hlen.
    rewrite app_nil_r, take_ge by lia.
    now rewrite list_insert_id.
  - cbn [length List.seq List.combine for_each fst snd].
    rewrite (sweep_cell_ok fcfs tg w fcfs_not_empty). cbn [bind].
    cbn [length] in Hlen.
    set (v := cell_value fcfs tg w).
    unfold matrix_set.
    rewrite (IH (S k) _ (<[k := v]> row)).
    + rewrite insert_alter_same. f_equal. f_equal.
      rewrite (take_S_r _ _ v).
      * rewrite take_insert_ge by lia. rewrite <- app_assoc. reflexivity.
      * apply list_lookup_insert_eq. lia.
    + rewrite list_lookup_alter_eq, Hrow. reflexivity.
    + rewrite length_insert. lia.
Qed.

(** The outer loop over the rows [k, k+1, ...] overwrites them with the
    rows of the remaining growth rates. *)
Lemma outer_loop_fills_rows (wacc_range : list Q) (tgs : list Q) :
  forall (k : nat) (m : matrix),
    length m = (k + length tgs)%nat ->
    (forall i row, m !! i = Some row -> length row = length wacc_range) ->
    for_each
      (fun m itg =>
         for_each
           (fun m jw =>
              let! v := sweep_cell fcfs (snd itg) (snd jw) in
              Ok (matrix_set m (fst itg) (fst jw) v))
           (enumerate wacc_range) m)
      (List.combine (List.seq k (length tgs)) tgs) m
    = Ok (take k m ++ grid_of fcfs wacc_range tgs).
Proof.
  induction tgs as [|tg tgs IH]; intros k m Hlen Hrows.
  - cbn [length List.seq List.combine for_each grid_of fmap list_fmap].
    cbn [length] in Hlen.
    rewrite app_nil_r, take_ge by lia. reflexivity.
  - cbn [length List.seq List.combine for_each fst snd].
    cbn [length] in Hlen.
    destruct (lookup_lt_is_Some_2 m k) as [row Hrow]; [lia|].
    unfold enumerate.
    rewrite (inner_loop_fills_row tg k wacc_range 0 m row Hrow)
      by (rewrite (Hrows k row Hrow); reflexivity).
    cbn [bind]. rewrite take_0, app_nil_l.
    set (new := cell_value fcfs tg <$> wacc_range).
    rewrite (IH (S k)).
    + rewrite (take_S_r _ _ new) by (apply list_lookup_insert_eq; lia).
      rewrite take_insert_ge by lia. rewrite <- app_assoc. reflexivity.
    + rewrite length_insert. lia.
    + intros i r Hi. rewrite list_lookup_insert in Hi.
      destruct (decide (k = i /\ (k < length m)%nat)) as [_|_].
      * injection Hi as <-. unfold new. now rewrite length_fmap.
      * eauto.
Qed.

End Loops.

Lemma sensitivity_analysis_ok (self : DCFModel) (wacc_range tg_range : list Q) :
  growth_rates self <> [] ->
  sensitivity_analysis self wacc_range tg_range
  = Ok (grid_of (projected_fcfs self) wacc_range tg_range).
Proof.
  intros Hg. unfold sensitivity_analysis, enumerate at 2. cbn zeta.
  fold (projected_fcfs self).
  rewrite (outer_loop_fills_rows (projected_fcfs self)).
  - now rewrite take_0.
  - now rewrite projected_fcfs_nil_iff.
  - unfold np_zeros. now rewrite length_replicate.
  - intros i row Hi. unfold np_zeros in Hi.
    apply lookup_replicate in Hi as [-> _]. apply length_replicate.
Qed.

Lemma grid_of_get (fcfs wacc_range tg_range : list Q) (i j : nat) (g w : Q) :
  tg_range !! i = Some g -> wacc_range !! j = Some w ->
  matrix_get (grid_of fcfs wacc_range tg_range) i j
  = Some (cell_value fcfs g w).
Proof.
  intros Hi Hj. unfold matrix_get, grid_of.
  rewrite list_lookup_fmap, Hi. cbn.
  rewrite list_lookup_fmap, Hj. reflexivity.
Qed.

Lemma grid_of_shape (fcfs wacc_range tg_range : list Q) :
  length (grid_of fcfs wacc_range tg_range) = length tg_range
  /\ forall i row,
       grid_of fcfs wacc_range tg_range !! i = Some row ->
       length row = length wacc_range.
Proof.
  unfold grid_of. split; [apply length_fmap|].
  intros i row Hi. rewrite list_lookup_fmap in Hi.
  destruct (tg_range !! i); [|discriminate].
  injection Hi as <-. apply length_fmap.
Qed.

Lemma run_valuation_fcfs (self : DCFModel) (r : Valuation) :
  run_valuation self = Ok r -> fcfs r = projected_fcfs self.
Proof.
  intros Hr. apply run_valuation_inv in Hr as (_ & _ & _ & f & _ & ->).
  reflexivity.
Qed.

Lemma run_valuation_enterprise_value (self : DCFModel) (r : Valuation) :
  run_valuation self = Ok r ->
  enterprise_value r
  = value_of_rates (projected_fcfs self) (terminal_growth self) (wacc self).
Proof.
  intros Hr. apply run_valuation_inv in Hr as (_ & _ & _ & f & Hf & ->).
  unfold value_of_rates. rewrite (py_last_inv _ _ Hf). reflexivity.
Qed.

(** The value depends on the rates as numbers, not on the fractions that
    represent them. *)
Lemma py_sum_zip_mul_proper (fcfs l1 l2 : list Q) :
  List.Forall2 Qeq l1 l2 ->
  forall a1 a2, a1 == a2 ->
  fold_left Qplus (zip_mul fcfs l1) a1 == fold_left Qplus (zip_mul fcfs l2) a2.
Proof.
  unfold zip_mul. intros H. revert fcfs.
  induction H as [|d1 d2 l1 l2 Hd _ IH]; intros fcfs a1 a2 Ha.
  - destruct fcfs; exact Ha.
  - destruct fcfs as [|x fcfs]; [exact Ha|].
    cbn [List.combine List.map fold_left fst snd].
    apply IH. now rewrite Ha, Hd.
Qed.

Lemma year_factor_proper (w w' : Q) (year : Z) :
  w == w' -> year_factor w year == year_factor w' year.
Proof. intros H. unfold year_factor. now rewrite H. Qed.

Lemma value_of_rates_proper (fcfs : list Q) (g g' w w' : Q) :
  g == g' -> w == w' -> value_of_rates fcfs g w == value_of_rates fcfs g' w'.
Proof.
  intros Hg Hw. unfold value_of_rates, py_sum.
  rewrite (py_sum_zip_mul_proper fcfs (five_factors w) (five_factors w')
             ltac:(unfold five_factors; cbn [List.map];
                   repeat constructor; now apply year_factor_proper)
             0 0 ltac:(reflexivity)).
  rewrite (year_factor_proper w w' 5 Hw), Hg, Hw. reflexivity.
Qed.

(** ** C3: the sweep and the base case *)

(** C3.  When the base valuation returns and its [(terminal_growth, wacc)]
    pair is on the axes, at row [i] and column [j], the sweep returns a
    matrix whose cell [(i, j)] is the base enterprise value.  The matrix
    has one row per growth rate and one column per rate, and the cell of
    row [i'] and column [j'] holds what the loop body computes from the
    base case's own FCF series for the growth rate of index [i'] and the
    rate of index [j']. *)
Theorem sweep_contains_base_case (self : DCFModel)
  (wacc_range tg_range : list Q) (i j : nat) (g w : Q) (r : Valuation) :
  run_valuation self = Ok r ->
  tg_range !! i = Some g -> g == terminal_growth self ->
  wacc_range !! j = Some w -> w == wacc self ->
  exists m : matrix,
    sensitivity_analysis self wacc_range tg_range = Ok m
    /\ (exists q, matrix_get m i j = Some (Fin q) /\ q == enterprise_value r)
    /\ length m = length tg_range
    /\ (forall i' row, m !! i' = Some row -> length row = length wacc_range)
    /\ (forall i' j' g' w',
          tg_range !! i' = Some g' -> wacc_range !! j' = Some w' ->
          exists v,
            sweep_cell (fcfs r) g' w' = Ok v
            /\ matrix_get m i' j' = Some v).
Proof.
  intros Hr Hi Hgeq Hj Hweq.
  pose proof (run_valuation_fcfs self r Hr) as Hfcfs.
  pose proof (run_valuation_inv self r Hr) as (Hg & Hw & Hwg & _).
  exists (grid_of (projected_fcfs self) wacc_range tg_range).
  split; [now apply sensitivity_analysis_ok|].
  split.
  - rewrite (grid_of_get _ _ _ i j _ _ Hi Hj).
    destruct (cell_value_is_valuation self g w) as (r' & Hr' & ->); auto.
    { intros E. apply Hw. lra. }
    { intros E. apply Hwg. lra. }
    exists (enterprise_value r'). split; [reflexivity|].
    rewrite (run_valuation_enterprise_value _ _ Hr').
    rewrite (run_valuation_enterprise_value _ _ Hr).
    now apply value_of_rates_proper.
  - split; [apply grid_of_shape|]. split; [apply grid_of_shape|].
    intros i' j' g' w' Hi' Hj'. rewrite Hfcfs.
    exists (cell_value (projected_fcfs self) g' w'). split.
    + apply sweep_cell_ok. now rewrite projected_fcfs_nil_iff.
    + now apply grid_of_get.
Qed.

Lemma sweep_contains_base_case_witness :
  exists (r : Valuation) (m : matrix) (q : Q),
    run_valuation scenario = Ok r
    /\ sensitivity_analysis scenario [6 # 100; 1 # 10] [2 # 100; 3 # 100]
       = Ok m
    /\ matrix_get m 1 1 = Some (Fin q)
    /\ q == enterprise_value r.
Proof.
  destruct (run_valuation scenario) as [r|e] eqn:Hr;
    [|vm_compute in Hr; discriminate].
  destruct (sweep_contains_base_case
              scenario [6 # 100; 1 # 10] [2 # 100; 3 # 100] 1 1
              (3 # 100) (1 # 10) r Hr eq_refl ltac:(reflexivity)
              eq_refl ltac:(reflexivity))
    as (m & Hm & (q & Hcell & Hq) & _).
  exists r, m, q.
  split; [reflexivity|]. split; [exact Hm|]. split; [exact Hcell|exact Hq].
Defined.

(** ** C4: infeasible cells of the sweep *)




(** ** C8: monotonicity in the two rates *)

Lemma compound_positive (prev : Q) (growths : list Q) :
  0 < prev -> List.Forall (fun g => -1 < g) growths ->
  List.Forall (fun x => 0 < x) (compound prev growths).
Proof.
  intros Hp Hg. revert prev Hp.
  induction Hg as [|g growths Hg _ IH]; intros prev Hp; cbn [compound].
  - constructor.
  - assert (Hnext : 0 < prev * (1 + g))
      by (apply Qmult_lt_0_compat; [assumption|lra]).
    constructor; [exact Hnext|]. now apply IH.
Qed.

Lemma projected_fcfs_positive (self : DCFModel) :
  valid_assumptions self ->
  List.Forall (fun g => -1 < g) (growth_rates self) ->
  List.Forall (fun x => 0 < x) (projected_fcfs self).
Proof.
  intros (Hrev & Hm & Hc & _ & Htax & _) Hg.
  unfold projected_fcfs, calculate_fcf, calculate_nopat, calculate_ebit.
  rewrite project_revenue_compound.
  pose proof (compound_positive _ _ Hrev Hg) as Hpos.
  rewrite !List.Forall_map.
  eapply List.Forall_impl; [|exact Hpos].
  intros x Hx. cbn beta in *.
  repeat apply Qmult_lt_0_compat; try assumption. lra.
Qed.

Lemma compound_nonneg (prev : Q) (growths : list Q) :
  0 <= prev -> List.Forall (fun g => -1 <= g) growths ->
  List.Forall (fun x => 0 <= x) (compound prev growths).
Proof.
  intros Hp Hg. revert prev Hp.
  induction Hg as [|g growths Hg _ IH]; intros prev Hp; cbn [compound].
  - constructor.
  - assert (Hnext : 0 <= prev * (1 + g))
      by (apply Qmult_le_0_compat; [assumption|lra]).
    constructor; [exact Hnext|]. now apply IH.
Qed.

Lemma projected_fcfs_nonneg (self : DCFModel) :
  valid_assumptions self ->
  List.Forall (fun g => -1 <= g) (growth_rates self) ->
  List.Forall (fun x => 0 <= x) (projected_fcfs self).
Proof.
  intros (Hrev & Hm & Hc & _ & Htax & _) Hg.
  unfold projected_fcfs, calculate_fcf, calculate_nopat, calculate_ebit.
  rewrite project_revenue_compound.
  assert (Hpos : List.Forall (fun x => 0 <= x)
                   (compound (current_revenue self) (growth_rates self)))
    by (apply compound_nonneg; [lra|exact Hg]).
  rewrite !List.Forall_map.
  eapply List.Forall_impl; [|exact Hpos].
  intros x Hx. cbn beta in *.
  repeat apply Qmult_le_0_compat; try assumption; lra.
Qed.

Lemma five_nonneg (l : list Q) :
  length l = 5%nat -> List.Forall (fun x => 0 <= x) l ->
  exists f1 f2 f3 f4 f5,
    l = [f1; f2; f3; f4; f5]
    /\ 0 <= f1 /\ 0 <= f2 /\ 0 <= f3 /\ 0 <= f4 /\ 0 <= f5.
Proof.
  intros Hlen Hpos.
  destruct l as [|f1 [|f2 [|f3 [|f4 [|f5 [|]]]]]]; try discriminate.
  exists f1, f2, f3, f4, f5.
  repeat match goal with
         | H : List.Forall _ (_ :: _) |- _ => inversion_clear H
         end.
  repeat split; assumption.
Qed.

Lemma last_nonneg (l : list Q) :
  List.Forall (fun x => 0 <= x) l -> 0 <= List.last l 0.
Proof.
  induction 1 as [|x l Hx Hl IH]; [cbn; lra|].
  rewrite last_cons_default. destruct l as [|y l]; [exact Hx|].
  rewrite (last_default_irrelevant l y x 0). exact IH.
Qed.

(** With five cash flows the terminal value merges with the fifth present
    value: the enterprise value is a polynomial in [1 / (1 + w)] whose last
    coefficient carries [1 / (w - g)]. *)
Lemma five_year_value (f1 f2 f3 f4 f5 g w : Q) :
  ~ 1 + w == 0 -> ~ w - g == 0 ->
  value_of_rates [f1; f2; f3; f4; f5] g w
  == f1 * / (1 + w) + f2 * (/ (1 + w)) ^ 2 + f3 * (/ (1 + w)) ^ 3
     + f4 * (/ (1 + w)) ^ 4 + f5 * / (w - g) * (/ (1 + w)) ^ 4.
Proof.
  intros Hw Hg.
  unfold value_of_rates, py_sum, zip_mul, five_factors, year_factor.
  cbn [List.map List.combine fold_left List.last fst snd].
  field. split; assumption.
Qed.

Lemma Qinv_lt_anti (a b : Q) : 0 < a -> a < b -> / b < / a.
Proof.
  intros Ha Hab. apply (proj1 (Qinv_lt_contravar a b Ha ltac:(lra))).
  exact Hab.
Qed.

Lemma Qmult_le_mono_nonneg (y x u v : Q) :
  0 <= y -> y <= x -> 0 <= u -> u <= v -> y * u <= x * v.
Proof. intros. nra. Qed.

Lemma five_year_polynomial_le (f1 f2 f3 f4 f5 x y a b : Q) :
  0 <= f1 -> 0 <= f2 -> 0 <= f3 -> 0 <= f4 -> 0 <= f5 ->
  0 <= y -> y <= x -> 0 <= b -> b <= a ->
  f1 * y + f2 * y ^ 2 + f3 * y ^ 3 + f4 * y ^ 4 + f5 * b * y ^ 4
  <= f1 * x + f2 * x ^ 2 + f3 * x ^ 3 + f4 * x ^ 4 + f5 * a * x ^ 4.
Proof.
  intros F1 F2 F3 F4 F5 Hy Hyx Hb Hba.
  assert (E2 : forall z, z ^ 2 == z * z) by (intros; ring).
  assert (E3 : forall z, z ^ 3 == z * (z * z)) by (intros; ring).
  assert (E4 : forall z, z ^ 4 == z * (z * (z * z))) by (intros; ring).
  rewrite !E2, !E3, !E4. clear E2 E3 E4.
  assert (P2 : 0 <= y * y) by nra.
  assert (H2 : y * y <= x * x) by (apply Qmult_le_mono_nonneg; assumption).
  assert (P3 : 0 <= y * (y * y)) by nra.
  assert (H3 : y * (y * y) <= x * (x * x))
    by (apply Qmult_le_mono_nonneg; assumption).
  assert (P4 : 0 <= y * (y * (y * y))) by nra.
  assert (H4 : y * (y * (y * y)) <= x * (x * (x * x)))
    by (apply Qmult_le_mono_nonneg; assumption).
  assert (H5 : b * (y * (y * (y * y))) <= a * (x * (x * (x * x))))
    by (apply Qmult_le_mono_nonneg; assumption).
  set (Y4 := y * (y * (y * y))) in *. set (X4 := x * (x * (x * x))) in *.
  set (Y3 := y * (y * y)) in *. set (X3 := x * (x * x)) in *.
  set (Y2 := y * y) in *. set (X2 := x * x) in *.
  clearbody Y4 X4 Y3 X3 Y2 X2.
  nra.
Qed.

(** The discounted terminal value as the terminal growth rate moves, for
    any rate other than -1. *)
Lemma terminal_part_mono (f g1 g2 w : Q) :
  0 <= f -> ~ 1 + w == 0 -> g1 < g2 -> g2 < w ->
  f * (1 + g1) / (w - g1) * year_factor w 5
  <= f * (1 + g2) / (w - g2) * year_factor w 5.
Proof.
  intros Hf Hw Hg Hgw.
  assert (E : forall g, g < w ->
            f * (1 + g) / (w - g) * year_factor w 5
            == f * (/ (w - g) * (/ (1 + w)) ^ 4 - (/ (1 + w)) ^ 5)).
  { intros g Hlt. unfold year_factor. field. split; [exact Hw|lra]. }
  rewrite (E g1) by lra. rewrite (E g2) by lra.
  assert (Ha : / (w - g1) <= / (w - g2))
    by (apply Qlt_le_weak, Qinv_lt_anti; lra).
  assert (E4 : (/ (1 + w)) ^ 4
               == (/ (1 + w) * / (1 + w)) * (/ (1 + w) * / (1 + w)))
    by ring.
  assert (H4 : 0 <= (/ (1 + w)) ^ 4) by (rewrite E4; nra).
  assert (Hf4 : 0 <= f * (/ (1 + w)) ^ 4)
    by (now apply Qmult_le_0_compat).
  set (q4 := (/ (1 + w)) ^ 4) in *. set (q5 := (/ (1 + w)) ^ 5) in *.
  clearbody q4 q5. nra.
Qed.




(** The bound on [wacc] is needed as well: with both rates below -100% the
    discount factors alternate in sign and a larger [wacc] can give a
    larger enterprise value. *)
Lemma monotonicity_fails_below_minus_one :
  valid_assumptions rates_below_minus_one
  /\ wacc rates_below_minus_one < - (5 # 2)
  /\ exists r1 r2,
       run_valuation rates_below_minus_one = Ok r1
       /\ run_valuation (with_wacc rates_below_minus_one (- (5 # 2))) = Ok r2
       /\ enterprise_value r1 < enterprise_value r2.
Proof.
  split.
  { unfold valid_assumptions. cbn.
    repeat split; (reflexivity || discriminate). }
  split; [reflexivity|].
  eexists. eexists.
  split; [vm_compute; reflexivity|].
  split; [vm_compute; reflexivity|].
  vm_compute. reflexivity.
Qed.

(** * Further properties of the valuation engine *)

(** ** Outcomes of the base valuation *)

(** X1.  What decides the outcome of [run_valuation].  A result is
    returned only if there is a growth rate, [wacc] is not [-1] and [wacc]
    differs from [terminal_growth]; [IndexError] is raised only if there is
    no growth rate and [wacc] is not [-1]; [ZeroDivisionError] is raised
    only if [wacc] is [-1] or there is a growth rate and [wacc] equals
    [terminal_growth].  With [wacc = -1] it is [ZeroDivisionError] whatever
    the growth rates, since the discount factors come first.  For a [wacc]
    in (-1, 1] the outcome is settled: [IndexError] without a growth rate,
    [ZeroDivisionError] with one and [wacc] equal to [terminal_growth], a
    result otherwise. *)
Theorem run_valuation_outcome (self : DCFModel) :
  (forall r, run_valuation self = Ok r ->
     growth_rates self <> [] /\ ~ 1 + wacc self == 0
     /\ ~ wacc self == terminal_growth self)
  /\ (run_valuation self = Raise IndexError ->
      growth_rates self = [] /\ ~ 1 + wacc self == 0)
  /\ (run_valuation self = Raise ZeroDivisionError ->
      1 + wacc self == 0
      \/ (growth_rates self <> [] /\ wacc self == terminal_growth self))
  /\ (1 + wacc self == 0 -> run_valuation self = Raise ZeroDivisionError)
  /\ (-1 < wacc self -> wacc self <= 1 ->
      (growth_rates self = [] -> run_valuation self = Raise IndexError)
      /\ (growth_rates self <> [] ->
          wacc self == terminal_growth self ->
          run_valuation self = Raise ZeroDivisionError)
      /\ (growth_rates self <> [] ->
          ~ wacc self == terminal_growth self ->
          succeeds (run_valuation self))).
Proof.
  split.
  { intros r Hr. apply run_valuation_inv in Hr. tauto. }
  split.
  { intros He.
    destruct (Qeq_dec (1 + wacc self) 0) as [Hw|Hw].
    { rewrite (run_valuation_minus_one self Hw) in He. discriminate. }
    split; [|exact Hw].
    destruct (growth_rates self) as [|g0 gs] eqn:Hg; [reflexivity|].
    assert (Hne : growth_rates self <> []) by (rewrite Hg; discriminate).
    destruct (Qeq_dec (wacc self) (terminal_growth self)) as [Hwg|Hwg].
    - rewrite (run_valuation_equal_rates self Hne Hw Hwg) in He.
      discriminate.
    - destruct (run_valuation_ok self Hne Hw Hwg) as (f & _ & Hok).
      rewrite Hok in He. discriminate. }
  split.
  { intros He.
    destruct (Qeq_dec (1 + wacc self) 0) as [Hw|Hw]; [now left|].
    right.
    destruct (growth_rates self) as [|g0 gs] eqn:Hg.
    { rewrite (run_valuation_growth_nil self Hg Hw) in He. discriminate. }
    assert (Hne : growth_rates self <> []) by (rewrite Hg; discriminate).
    split; [discriminate|].
    destruct (Qeq_dec (wacc self) (terminal_growth self)) as [Hwg|Hwg];
      [exact Hwg|].
    destruct (run_valuation_ok self Hne Hw Hwg) as (f & _ & Hok).
    rewrite Hok in He. discriminate. }
  split; [apply run_valuation_minus_one|].
  intros Hlo Hhi.
  assert (Hw : ~ 1 + wacc self == 0) by (intros E; lra).
  split; [intros Hg; now apply run_valuation_growth_nil|].
  split; [intros Hg Hwg; now apply run_valuation_equal_rates|].
  intros Hg Hwg.
  destruct (run_valuation_ok self Hg Hw Hwg) as (f & _ & Hok).
  now exists (valuation_of self f).
Qed.

Lemma run_valuation_outcome_witness :
  run_valuation (with_growth_rates scenario []) = Raise IndexError
  /\ run_valuation (with_wacc scenario (3 # 100)) = Raise ZeroDivisionError
  /\ succeeds (run_valuation scenario).
Proof.
  split; [|split].
  - apply (proj2 (proj2 (proj2 (proj2
             (run_valuation_outcome (with_growth_rates scenario [])))))
             ltac:(reflexivity) ltac:(vm_compute; discriminate)).
    reflexivity.
  - apply (proj2 (proj2 (proj2 (proj2
             (run_valuation_outcome (with_wacc scenario (3 # 100))))))
             ltac:(reflexivity) ltac:(vm_compute; discriminate));
      [discriminate|reflexivity].
  - apply (proj2 (proj2 (proj2 (proj2 (run_valuation_outcome scenario))))
             ltac:(reflexivity) ltac:(vm_compute; discriminate));
      [discriminate|vm_compute; discriminate].
Defined.

(** ** Discount factors *)

(** X2.  When the discount factors are returned there are five of them, the
    first is [1 / (1 + wacc)], the last [1 / (1 + wacc) ** 5], each is the
    one before divided by [1 + wacc], and with a [wacc] that is not
    negative they are positive, at most 1, and never increase from one
    year to the next. *)
Theorem discount_factors_chain (self : DCFModel) (dfs : list Q) :
  calculate_discount_factors self = Ok dfs ->
  length dfs = 5%nat
  /\ dfs !! 0%nat = Some (1 / (1 + wacc self))
  /\ dfs !! 4%nat = Some (1 / (1 + wacc self) ^ 5)
  /\ forall i d d',
       dfs !! i = Some d -> dfs !! S i = Some d' ->
       d' == d / (1 + wacc self)
       /\ (0 <= wacc self -> 0 < d' /\ d' <= d /\ d <= 1).
Proof.
  intros Hd.
  destruct (Qeq_dec (1 + wacc self) 0) as [Hw|Hw].
  { rewrite (calculate_discount_factors_zero self Hw) in Hd. discriminate. }
  rewrite (calculate_discount_factors_ok self Hw) in Hd.
  injection Hd as <-.
  split; [reflexivity|]. split; [reflexivity|]. split; [reflexivity|].
  intros i d d' Hi Hi'.
  assert (Hbound : forall y : Z,
             (1 <= y)%Z -> 0 <= wacc self ->
             0 < 1 / (1 + wacc self) ^ y /\ 1 / (1 + wacc self) ^ y <= 1).
  { intros y Hy Hpos.
    assert (Hp : 1 <= (1 + wacc self) ^ y)
      by (apply Qpower_1_le; [lra|lia]).
    assert (Hi0 : 0 < / (1 + wacc self) ^ y)
      by (apply Qinv_lt_0_compat; lra).
    split; [unfold Qdiv; lra|].
    apply Qle_shift_div_r; lra. }
  assert (Hdiv : forall a : Q, 0 < a -> 0 <= wacc self ->
                               a / (1 + wacc self) <= a).
  { intros a Ha Hpos. apply Qle_shift_div_r; [lra|nra]. }
  unfold five_factors, year_factor in Hi, Hi'.
  cbn [List.map] in Hi, Hi'.
  destruct i as [|[|[|[|[|i]]]]]; cbn in Hi, Hi'; try discriminate;
    injection Hi as <-; injection Hi' as <-.
  - assert (E : 1 / (1 + wacc self) ^ 2
                == 1 / (1 + wacc self) ^ 1 / (1 + wacc self))
      by (field; exact Hw).
    split; [exact E|]. intros Hpos.
    destruct (Hbound 1%Z ltac:(lia) Hpos) as [H1 H2].
    destruct (Hbound 2%Z ltac:(lia) Hpos) as [H3 _].
    split; [exact H3|]. split; [|exact H2].
    rewrite E. now apply Hdiv.
  - assert (E : 1 / (1 + wacc self) ^ 3
                == 1 / (1 + wacc self) ^ 2 / (1 + wacc self))
      by (field; exact Hw).
    split; [exact E|]. intros Hpos.
    destruct (Hbound 2%Z ltac:(lia) Hpos) as [H1 H2].
    destruct (Hbound 3%Z ltac:(lia) Hpos) as [H3 _].
    split; [exact H3|]. split; [|exact H2].
    rewrite E. now apply Hdiv.
  - assert (E : 1 / (1 + wacc self) ^ 4
                == 1 / (1 + wacc self) ^ 3 / (1 + wacc self))
      by (field; exact Hw).
    split; [exact E|]. intros Hpos.
    destruct (Hbound 3%Z ltac:(lia) Hpos) as [H1 H2].
    destruct (Hbound 4%Z ltac:(lia) Hpos) as [H3 _].
    split; [exact H3|]. split; [|exact H2].
    rewrite E. now apply Hdiv.
  - assert (E : 1 / (1 + wacc self) ^ 5
                == 1 / (1 + wacc self) ^ 4 / (1 + wacc self))
      by (field; exact Hw).
    split; [exact E|]. intros Hpos.
    destruct (Hbound 4%Z ltac:(lia) Hpos) as [H1 H2].
    destruct (Hbound 5%Z ltac:(lia) Hpos) as [H3 _].
    split; [exact H3|]. split; [|exact H2].
    rewrite E. now apply Hdiv.
Qed.

(** ** Closed form of the projection *)

Lemma compound_lookup (prev : Q) (growths : list Q) (i : nat) :
  (i < length growths)%nat ->
  compound prev growths !! i = Some (compounded prev (take (S i) growths)).
Proof.
  revert prev i. induction growths as [|g growths IH]; intros prev i Hi.
  - cbn in Hi. lia.
  - destruct i as [|i]; [reflexivity|].
    cbn [length] in Hi.
    change (compound (prev * (1 + g)) growths !! i
            = Some (compounded (prev * (1 + g)) (take (S i) growths))).
    apply IH. lia.
Qed.

(** X3.  Year [i] of the projection is the current revenue compounded
    through the first [i + 1] growth rates, and its free cash flow is that
    revenue times the margin, times [1 - tax_rate], times the conversion
    rate. *)
Theorem projection_closed_form (self : DCFModel) (i : nat) :
  (i < length (growth_rates self))%nat ->
  project_revenue self !! i
  = Some (compounded (current_revenue self) (take (S i) (growth_rates self)))
  /\ calculate_fcf self
       (calculate_nopat self (calculate_ebit self (project_revenue self)))
     !! i
     = Some (compounded (current_revenue self)
                        (take (S i) (growth_rates self))
             * ebit_margin self * (1 - tax_rate self) * fcf_conversion self).
Proof.
  intros Hi.
  assert (Hrev : project_revenue self !! i
                 = Some (compounded (current_revenue self)
                                    (take (S i) (growth_rates self)))).
  { rewrite project_revenue_compound. now apply compound_lookup. }
  split; [exact Hrev|].
  unfold calculate_fcf, calculate_nopat, calculate_ebit.
  rewrite (list_lookup_fmap _ _ i), (list_lookup_fmap _ _ i),
    (list_lookup_fmap _ _ i), Hrev.
  reflexivity.
Qed.

Lemma projection_closed_form_witness :
  project_revenue scenario !! 4%nat
  = Some (100 * (1 + (15 # 100)) * (1 + (12 # 100)) * (1 + (10 # 100))
          * (1 + (8 # 100)) * (1 + (6 # 100))).
Proof.
  apply (proj1 (projection_closed_form scenario 4 ltac:(cbn; lia))).
Defined.

(** ** The fifth year and the terminal value *)

(** X4.  With five growth rates, the present value of the fifth cash flow
    and the present value of the terminal value add up to the fifth cash
    flow capitalised at [wacc - terminal_growth] and discounted over four
    years. *)
Theorem fifth_year_and_terminal_value (self : DCFModel) (r : Valuation)
  (fcf5 pv5 : Q) :
  run_valuation self = Ok r ->
  length (growth_rates self) = 5%nat ->
  fcfs r !! 4%nat = Some fcf5 ->
  pv_fcfs r !! 4%nat = Some pv5 ->
  pv5 + pv_terminal_value r
  == fcf5 / ((wacc self - terminal_growth self) * (1 + wacc self) ^ 4).
Proof.
  intros Hr Hlen Hf Hp.
  apply run_valuation_inv in Hr as (_ & Hw & Hwg & f & Hlast & ->).
  apply py_last_lookup in Hlast.
  rewrite length_projected_fcfs, Hlen in Hlast.
  cbn [fcfs pv_fcfs pv_terminal_value valuation_of] in *.
  fold (projected_fcfs self) in Hf, Hp.
  change (5 - 1)%nat with 4%nat in Hlast.
  rewrite Hlast in Hf. injection Hf as ->.
  rewrite lookup_zip_mul, Hlast in Hp. cbn in Hp. injection Hp as <-.
  unfold year_factor. field.
  split; [exact Hw|]. intros E. apply Hwg. lra.
Qed.

Lemma fifth_year_and_terminal_value_witness :
  exists r fcf5 pv5,
    run_valuation scenario = Ok r
    /\ fcfs r !! 4%nat = Some fcf5
    /\ pv_fcfs r !! 4%nat = Some pv5
    /\ pv5 + pv_terminal_value r
       == fcf5 / (((10 # 100) - (3 # 100)) * (1 + (10 # 100)) ^ 4).
Proof.
  destruct (run_valuation scenario) as [r|e] eqn:Hr;
    [|vm_compute in Hr; discriminate].
  destruct (fcfs r !! 4%nat) as [fcf5|] eqn:Hf.
  2:{ apply run_valuation_inv in Hr as (_ & _ & _ & f & _ & ->).
      vm_compute in Hf. discriminate. }
  destruct (pv_fcfs r !! 4%nat) as [pv5|] eqn:Hp.
  2:{ apply run_valuation_inv in Hr as (_ & _ & _ & f & _ & ->).
      vm_compute in Hp. discriminate. }
  exists r, fcf5, pv5.
  split; [reflexivity|]. split; [exact Hf|]. split; [exact Hp|].
  exact (fifth_year_and_terminal_value scenario r fcf5 pv5 Hr eq_refl Hf Hp).
Defined.

Lemma discount_factors_chain_witness :
  exists dfs,
    calculate_discount_factors scenario = Ok dfs
    /\ length dfs = 5%nat
    /\ dfs !! 0%nat = Some (1 / (1 + (10 # 100)))
    /\ dfs !! 4%nat = Some (1 / (1 + (10 # 100)) ^ 5).
Proof.
  destruct (calculate_discount_factors scenario) as [dfs|e] eqn:Hd;
    [|vm_compute in Hd; discriminate].
  destruct (discount_factors_chain scenario dfs Hd) as (H1 & H2 & H3 & _).
  exists dfs. split; [reflexivity|]. split; [exact H1|].
  split; [exact H2|exact H3].
Defined.

(** ** Positivity *)

Lemma zip_mul_positive (l1 l2 : list Q) :
  List.Forall (fun x => 0 < x) l1 -> List.Forall (fun x => 0 < x) l2 ->
  List.Forall (fun x => 0 < x) (zip_mul l1 l2).
Proof.
  unfold zip_mul. intros H1. revert l2.
  induction H1 as [|x l1 Hx _ IH]; intros l2 H2; [constructor|].
  destruct H2 as [|y l2 Hy H2]; [constructor|].
  cbn [List.combine List.map fst snd]. constructor.
  - now apply Qmult_lt_0_compat.
  - now apply IH.
Qed.

Lemma fold_sum_positive (l : list Q) :
  List.Forall (fun x => 0 < x) l ->
  forall a, 0 <= a ->
            a <= fold_left Qplus l a /\ (l <> [] -> 0 < fold_left Qplus l a).
Proof.
  induction 1 as [|x l Hx _ IH]; intros a Ha.
  - cbn. split; [lra|congruence].
  - cbn [fold_left]. destruct (IH (a + x)) as [H1 H2]; [lra|].
    split; [lra|]. intros _. lra.
Qed.

Lemma five_factors_positive (w : Q) :
  0 < 1 + w -> List.Forall (fun x => 0 < x) (five_factors w).
Proof.
  intros Hw. unfold five_factors, year_factor. cbn [List.map].
  repeat constructor; unfold Qdiv; rewrite Qmult_1_l;
    apply Qinv_lt_0_compat, Qpower_0_lt; exact Hw.
Qed.

Lemma last_positive (l : list Q) :
  List.Forall (fun x => 0 < x) l -> l <> [] -> 0 < List.last l 0.
Proof.
  induction 1 as [|x l Hx Hl IH]; [congruence|]. intros _.
  rewrite last_cons_default. destruct l as [|y l]; [exact Hx|].
  rewrite (last_default_irrelevant l y x 0). apply IH. discriminate.
Qed.

Lemma Forall_map_positive (c : Q) (l : list Q) :
  0 < c -> List.Forall (fun x => 0 < x) l ->
  List.Forall (fun x => 0 < x) (List.map (fun x => x * c) l).
Proof.
  intros Hc Hl. rewrite List.Forall_map.
  eapply List.Forall_impl; [|exact Hl].
  intros x Hx. cbn beta in *. now apply Qmult_lt_0_compat.
Qed.

Lemma valuation_positive_parts (self : DCFModel) :
  valid_assumptions self ->
  growth_rates self <> [] ->
  List.Forall (fun g => -1 < g) (growth_rates self) ->
  -1 < terminal_growth self ->
  exists r,
    run_valuation self = Ok r
    /\ List.Forall (fun x => 0 < x) (revenues r)
    /\ List.Forall (fun x => 0 < x) (ebits r)
    /\ List.Forall (fun x => 0 < x) (nopats r)
    /\ List.Forall (fun x => 0 < x) (fcfs r)
    /\ List.Forall (fun x => 0 < x) (discount_factors r)
    /\ List.Forall (fun x => 0 < x) (pv_fcfs r)
    /\ 0 < terminal_value r
    /\ 0 < pv_terminal_value r
    /\ 0 < pv_forecast_period r
    /\ pv_terminal_value r < enterprise_value r
    /\ pv_forecast_period r < enterprise_value r.
Proof.
  intros Hvalid Hne Hgrowth Htg.
  pose proof Hvalid as (Hrev & Hm & Hc & _ & Htax & Hwg).
  destruct (run_valuation_ok self) as (f & Hf & Hok); auto.
  { intros E. lra. }
  { intros E. lra. }
  exists (valuation_of self f). split; [exact Hok|].
  assert (Hrevs : List.Forall (fun x => 0 < x) (project_revenue self)).
  { rewrite project_revenue_compound. now apply compound_positive. }
  assert (Hebit : List.Forall (fun x => 0 < x)
                              (calculate_ebit self (project_revenue self)))
    by (now apply Forall_map_positive).
  assert (Hnopat : List.Forall (fun x => 0 < x)
                     (calculate_nopat self
                        (calculate_ebit self (project_revenue self))))
    by (apply Forall_map_positive; [lra|exact Hebit]).
  assert (Hfcf : List.Forall (fun x => 0 < x) (projected_fcfs self))
    by (now apply Forall_map_positive).
  assert (Hdfs : List.Forall (fun x => 0 < x) (five_factors (wacc self)))
    by (apply five_factors_positive; lra).
  assert (Hpv : List.Forall (fun x => 0 < x)
                  (zip_mul (projected_fcfs self) (five_factors (wacc self))))
    by (now apply zip_mul_positive).
  assert (Hlast : 0 < f).
  { rewrite <- (py_last_inv _ _ Hf). apply last_positive; [exact Hfcf|].
    now rewrite projected_fcfs_nil_iff. }
  assert (Htv : 0 < f * (1 + terminal_growth self)
                    / (wacc self - terminal_growth self)).
  { unfold Qdiv. apply Qmult_lt_0_compat.
    - apply Qmult_lt_0_compat; lra.
    - apply Qinv_lt_0_compat. lra. }
  assert (Hdf5 : 0 < year_factor (wacc self) 5).
  { unfold year_factor, Qdiv. rewrite Qmult_1_l.
    apply Qinv_lt_0_compat, Qpower_0_lt. lra. }
  assert (Hpvtv : 0 < f * (1 + terminal_growth self)
                      / (wacc self - terminal_growth self)
                      * year_factor (wacc self) 5)
    by (now apply Qmult_lt_0_compat).
  assert (Hsum : 0 < py_sum (zip_mul (projected_fcfs self)
                                     (five_factors (wacc self)))).
  { apply (fold_sum_positive _ Hpv 0); [lra|].
    destruct (projected_fcfs self) eqn:E.
    - apply projected_fcfs_nil_iff in E. contradiction.
    - discriminate. }
  cbn [revenues ebits nopats fcfs discount_factors pv_fcfs terminal_value
       pv_terminal_value pv_forecast_period enterprise_value valuation_of].
  fold (projected_fcfs self).
  split; [exact Hrevs|]. split; [exact Hebit|]. split; [exact Hnopat|].
  split; [exact Hfcf|]. split; [exact Hdfs|]. split; [exact Hpv|].
  split; [exact Htv|]. split; [exact Hpvtv|]. split; [exact Hsum|].
  split; lra.
Qed.

Lemma zip_mul_nonneg (l1 l2 : list Q) :
  List.Forall (fun x => 0 <= x) l1 -> List.Forall (fun x => 0 < x) l2 ->
  List.Forall (fun x => 0 <= x) (zip_mul l1 l2).
Proof.
  unfold zip_mul. intros H1. revert l2.
  induction H1 as [|x l1 Hx _ IH]; intros l2 H2; [constructor|].
  destruct H2 as [|y l2 Hy H2]; [constructor|].
  cbn [List.combine List.map fst snd]. constructor.
  - apply Qmult_le_0_compat; lra.
  - now apply IH.
Qed.

Lemma fold_sum_nonneg (l : list Q) :
  List.Forall (fun x => 0 <= x) l ->
  forall a, 0 <= a -> a <= fold_left Qplus l a.
Proof.
  induction 1 as [|x l Hx _ IH]; intros a Ha.
  - cbn. lra.
  - cbn [fold_left]. specialize (IH (a + x) ltac:(lra)). lra.
Qed.

Lemma Forall_map_nonneg (c : Q) (l : list Q) :
  0 <= c -> List.Forall (fun x => 0 <= x) l ->
  List.Forall (fun x => 0 <= x) (List.map (fun x => x * c) l).
Proof.
  intros Hc Hl. rewrite List.Forall_map.
  eapply List.Forall_impl; [|exact Hl].
  intros x Hx. cbn beta in *. now apply Qmult_le_0_compat.
Qed.

(** X5.  For a record with revenue, margin and conversion rate that are
    not negative, a tax rate of at most 1, every growth rate at least
    -100% and [-1 <= terminal_growth < wacc]: whenever the valuation
    returns, no entry of the four projected series, of the discount
    factors or of the present values is negative, the terminal value and
    the two parts of the enterprise value are not negative, and neither
    part exceeds the enterprise value. *)
Theorem valuation_is_nonnegative (self : DCFModel) (r : Valuation) :
  0 <= current_revenue self ->
  0 <= ebit_margin self ->
  0 <= fcf_conversion self ->
  tax_rate self <= 1 ->
  List.Forall (fun g => -1 <= g) (growth_rates self) ->
  -1 <= terminal_growth self ->
  terminal_growth self < wacc self ->
  run_valuation self = Ok r ->
  List.Forall (fun x => 0 <= x) (revenues r)
  /\ List.Forall (fun x => 0 <= x) (ebits r)
  /\ List.Forall (fun x => 0 <= x) (nopats r)
  /\ List.Forall (fun x => 0 <= x) (fcfs r)
  /\ List.Forall (fun x => 0 <= x) (discount_factors r)
  /\ List.Forall (fun x => 0 <= x) (pv_fcfs r)
  /\ 0 <= terminal_value r
  /\ 0 <= pv_terminal_value r
  /\ 0 <= pv_forecast_period r
  /\ pv_terminal_value r <= enterprise_value r
  /\ pv_forecast_period r <= enterprise_value r.
Proof.
  intros Hrev Hm Hc Htax Hgrowth Htg Hwg Hr.
  apply run_valuation_inv in Hr as (_ & _ & _ & f & Hf & ->).
  assert (Hrevs : List.Forall (fun x => 0 <= x) (project_revenue self)).
  { rewrite project_revenue_compound. now apply compound_nonneg. }
  assert (Hebit : List.Forall (fun x => 0 <= x)
                              (calculate_ebit self (project_revenue self)))
    by (now apply Forall_map_nonneg).
  assert (Hnopat : List.Forall (fun x => 0 <= x)
                     (calculate_nopat self
                        (calculate_ebit self (project_revenue self))))
    by (apply Forall_map_nonneg; [lra|exact Hebit]).
  assert (Hfcf : List.Forall (fun x => 0 <= x) (projected_fcfs self))
    by (now apply Forall_map_nonneg).
  assert (Hdfs : List.Forall (fun x => 0 < x) (five_factors (wacc self)))
    by (apply five_factors_positive; lra).
  assert (Hdfs0 : List.Forall (fun x => 0 <= x) (five_factors (wacc self))).
  { eapply List.Forall_impl; [|exact Hdfs]. cbn beta. intros x Hx. lra. }
  assert (Hpv : List.Forall (fun x => 0 <= x)
                  (zip_mul (projected_fcfs self) (five_factors (wacc self))))
    by (now apply zip_mul_nonneg).
  assert (Hlast : 0 <= f).
  { rewrite <- (py_last_inv _ _ Hf). now apply last_nonneg. }
  assert (Htv : 0 <= f * (1 + terminal_growth self)
                     / (wacc self - terminal_growth self)).
  { unfold Qdiv. apply Qmult_le_0_compat.
    - apply Qmult_le_0_compat; lra.
    - apply Qlt_le_weak, Qinv_lt_0_compat. lra. }
  assert (Hdf5 : 0 <= year_factor (wacc self) 5).
  { unfold year_factor, Qdiv. rewrite Qmult_1_l.
    apply Qlt_le_weak, Qinv_lt_0_compat, Qpower_0_lt. lra. }
  assert (Hpvtv : 0 <= f * (1 + terminal_growth self)
                       / (wacc self - terminal_growth self)
                       * year_factor (wacc self) 5)
    by (now apply Qmult_le_0_compat).
  assert (Hsum : 0 <= py_sum (zip_mul (projected_fcfs self)
                                      (five_factors (wacc self))))
    by (apply (fold_sum_nonneg _ Hpv 0); lra).
  cbn [revenues ebits nopats fcfs discount_factors pv_fcfs terminal_value
       pv_terminal_value pv_forecast_period enterprise_value valuation_of].
  fold (projected_fcfs self).
  split; [exact Hrevs|]. split; [exact Hebit|]. split; [exact Hnopat|].
  split; [exact Hfcf|]. split; [exact Hdfs0|]. split; [exact Hpv|].
  split; [exact Htv|]. split; [exact Hpvtv|]. split; [exact Hsum|].
  split; lra.
Qed.

Lemma valuation_is_nonnegative_witness :
  exists r,
    run_valuation scenario = Ok r
    /\ 0 <= pv_terminal_value r
    /\ pv_terminal_value r <= enterprise_value r.
Proof.
  destruct (run_valuation scenario) as [r|e] eqn:Hr;
    [|vm_compute in Hr; discriminate].
  destruct (valuation_is_nonnegative scenario r
              ltac:(discriminate) ltac:(discriminate) ltac:(discriminate)
              ltac:(discriminate)
              ltac:(cbn; repeat constructor; discriminate)
              ltac:(discriminate) ltac:(reflexivity) Hr)
    as (_ & _ & _ & _ & _ & _ & _ & H1 & _ & H2 & _).
  exists r. split; [reflexivity|]. split; [exact H1|exact H2].
Defined.

(** ** Edge cases of the sweep *)

Lemma for_each_unchanged {S A : Type} (body : S -> A -> res S) (l : list A)
  (s : S) :
  (forall x, body s x = Ok s) -> for_each body l s = Ok s.
Proof.
  intros Hbody. induction l as [|x l IH]; [reflexivity|].
  cbn [for_each]. rewrite Hbody. exact IH.
Qed.

Lemma for_each_ext {S A : Type} (body1 body2 : S -> A -> res S)
  (l : list A) :
  (forall s x, body1 s x = body2 s x) ->
  forall s, for_each body1 l s = for_each body2 l s.
Proof.
  intros Hext. induction l as [|x l IH]; intros s; [reflexivity|].
  cbn [for_each]. rewrite Hext. destruct (body2 s x); [apply IH|reflexivity].
Qed.

Lemma length_np_zeros (rows cols : nat) :
  length (np_zeros rows cols) = rows
  /\ forall i row, np_zeros rows cols !! i = Some row -> length row = cols.
Proof.
  unfold np_zeros. split; [apply length_replicate|].
  intros i row Hi. apply lookup_replicate in Hi as [-> _].
  apply length_replicate.
Qed.

Lemma sensitivity_analysis_no_cash_flow (self : DCFModel)
  (wacc_range tg_range : list Q) :
  growth_rates self = [] -> wacc_range <> [] -> tg_range <> [] ->
  sensitivity_analysis self wacc_range tg_range = Raise IndexError.
Proof.
  intros Hg Hw Ht. unfold sensitivity_analysis. cbn zeta.
  fold (projected_fcfs self).
  apply projected_fcfs_nil_iff in Hg. rewrite Hg.
  destruct tg_range as [|tg tgs]; [congruence|].
  destruct wacc_range as [|w ws]; [congruence|].
  reflexivity.
Qed.

Lemma sensitivity_analysis_empty_axis (self : DCFModel)
  (wacc_range tg_range : list Q) :
  wacc_range = [] \/ tg_range = [] ->
  sensitivity_analysis self wacc_range tg_range
  = Ok (np_zeros (length tg_range) (length wacc_range)).
Proof.
  intros [-> | ->]; unfold sensitivity_analysis; cbn zeta.
  - apply for_each_unchanged. reflexivity.
  - reflexivity.
Qed.

(** X6.  The sweep never raises [ZeroDivisionError].  It raises
    [IndexError] when there is no growth rate and both axes hold a value;
    in every other case it returns a matrix with one row per growth-rate
    value and one column per rate value, which is the matrix of zeros when
    an axis is empty. *)
Theorem sweep_outcomes (self : DCFModel) (wacc_range tg_range : list Q) :
  (growth_rates self = [] -> wacc_range <> [] -> tg_range <> [] ->
   sensitivity_analysis self wacc_range tg_range = Raise IndexError)
  /\ (growth_rates self <> [] \/ wacc_range = [] \/ tg_range = [] ->
      exists m : matrix,
        sensitivity_analysis self wacc_range tg_range = Ok m
        /\ length m = length tg_range
        /\ forall i row, m !! i = Some row -> length row = length wacc_range)
  /\ (wacc_range = [] \/ tg_range = [] ->
      sensitivity_analysis self wacc_range tg_range
      = Ok (replicate (length tg_range)
                      (replicate (length wacc_range) (Fin 0))))
  /\ sensitivity_analysis self wacc_range tg_range <> Raise ZeroDivisionError.
Proof.
  split; [apply sensitivity_analysis_no_cash_flow|].
  split.
  { intros [Hg|Hempty].
    - exists (grid_of (projected_fcfs self) wacc_range tg_range).
      split; [now apply sensitivity_analysis_ok|]. apply grid_of_shape.
    - exists (np_zeros (length tg_range) (length wacc_range)).
      split; [now apply sensitivity_analysis_empty_axis|].
      apply length_np_zeros. }
  split; [apply sensitivity_analysis_empty_axis|].
  destruct (growth_rates self) as [|g gs] eqn:Hg.
  - destruct wacc_range as [|w ws].
    { rewrite sensitivity_analysis_empty_axis by auto. discriminate. }
    destruct tg_range as [|tg tgs].
    { rewrite sensitivity_analysis_empty_axis by auto. discriminate. }
    rewrite sensitivity_analysis_no_cash_flow by (auto; discriminate).
    discriminate.
  - rewrite sensitivity_analysis_ok by (rewrite Hg; discriminate).
    discriminate.
Qed.

Lemma sweep_outcomes_witness :
  sensitivity_analysis (with_growth_rates scenario []) [10 # 100] [3 # 100]
  = Raise IndexError
  /\ sensitivity_analysis (with_growth_rates scenario []) [] [3 # 100]
     = Ok [[]].
Proof.
  split.
  - apply (proj1 (sweep_outcomes (with_growth_rates scenario [])
                                 [10 # 100] [3 # 100]));
      (reflexivity || discriminate).
  - apply (proj1 (proj2 (proj2 (sweep_outcomes
                                  (with_growth_rates scenario [])
                                  [] [3 # 100])))).
    left. reflexivity.
Defined.

(** ** The sweep of the script *)

(** X7.  The sweep written out in [valuation_dashboard.py], run on the cash
    flows the script's own DCF computation produced, has the outcome of
    [DCFModel.sensitivity_analysis] on the same assumptions and axes. *)
Theorem dashboard_sweep_agrees (self : DCFModel) (r : Valuation)
  (wacc_range tg_range : list Q) :
  dashboard_dcf (current_revenue self) (growth_rates self)
                (ebit_margin self) (tax_rate self) (wacc self)
                (terminal_growth self) (fcf_conversion self)
  = Ok r ->
  dashboard_sweep (fcfs r) wacc_range tg_range
  = sensitivity_analysis self wacc_range tg_range.
Proof.
  intros Hr.
  assert (Hrun : run_valuation self = Ok r).
  { rewrite <- Hr. unfold dashboard_dcf, run_valuation, enumerate.
    rewrite (fold_left_enumerate
               (fun revs growth => revs ++ [List.last revs 0 * (1 + growth)])).
    reflexivity. }
  rewrite (run_valuation_fcfs self r Hrun).
  unfold dashboard_sweep, sensitivity_analysis. cbn zeta.
  fold (projected_fcfs self).
  apply for_each_ext. intros m itg.
  apply for_each_ext. intros m' jw.
  unfold sweep_cell.
  destruct (py_last (projected_fcfs self)); reflexivity.
Qed.

Lemma dashboard_sweep_agrees_witness :
  exists r,
    dashboard_dcf 100 [15 # 100; 12 # 100; 10 # 100; 8 # 100; 6 # 100]
                  (20 # 100) (25 # 100) (10 # 100) (3 # 100) (80 # 100)
    = Ok r
    /\ dashboard_sweep (fcfs r) [6 # 100; 10 # 100] [3 # 100]
       = sensitivity_analysis scenario [6 # 100; 10 # 100] [3 # 100].
Proof.
  destruct (dashboard_dcf 100 [15 # 100; 12 # 100; 10 # 100; 8 # 100; 6 # 100]
                          (20 # 100) (25 # 100) (10 # 100) (3 # 100)
                          (80 # 100)) as [r|e] eqn:Hr;
    [|vm_compute in Hr; discriminate].
  exists r. split; [reflexivity|].
  exact (dashboard_sweep_agrees scenario r _ _ Hr).
Defined.

(** ** The axes of the application *)

Lemma app_axes_bounds :
  List.Forall (fun w => 6 # 100 <= w) app_wacc_range
  /\ List.Forall (fun g => g <= 5 # 100) app_tg_range
  /\ length app_wacc_range = 9%nat
  /\ length app_tg_range = 7%nat.
Proof.
  split; [|split; [|split; reflexivity]].
  - unfold app_wacc_range, np_linspace. cbn [List.seq List.map].
    repeat constructor; vm_compute; discriminate.
  - unfold app_tg_range, np_linspace. cbn [List.seq List.map].
    repeat constructor; vm_compute; discriminate.
Qed.



(** ** From the sidebar to the valuation *)

Lemma Qdiv_100 (x : Q) : x / 100 == x * (1 # 100).
Proof. reflexivity. Qed.

Lemma collect_user_inputs_growth_rates (ui : Sidebar) :
  growth_rates (collect_user_inputs ui)
  = [growth_slider ui 1 / 100; growth_slider ui 2 / 100;
     growth_slider ui 3 / 100; growth_slider ui 4 / 100;
     growth_slider ui 5 / 100].
Proof. reflexivity. Qed.

Lemma sidebar_growth_rates_bounds (ui : Sidebar) :
  within_widget_bounds ui ->
  List.Forall (fun g => 0 <= g /\ g <= 30 # 100)
              (growth_rates (collect_user_inputs ui)).
Proof.
  intros (_ & Hg & _). rewrite collect_user_inputs_growth_rates.
  assert (Hone : forall year,
             0 <= growth_slider ui year / 100
             /\ growth_slider ui year / 100 <= 30 # 100).
  { intros year. destruct (Hg year). rewrite Qdiv_100. split; lra. }
  repeat (apply List.Forall_cons; [apply Hone|]).
  apply List.Forall_nil.
Qed.

Lemma sidebar_valid_assumptions (ui : Sidebar) :
  within_widget_bounds ui ->
  terminal_growth_slider ui < wacc_slider ui ->
  valid_assumptions (collect_user_inputs ui)
  /\ List.Forall (fun g => -1 < g) (growth_rates (collect_user_inputs ui))
  /\ -1 < terminal_growth (collect_user_inputs ui).
Proof.
  intros Hb Hlt.
  pose proof (sidebar_growth_rates_bounds ui Hb) as Hg.
  destruct Hb as (Hrev & _ & Hm & Htax & Hw & Ht & Hc).
  split; [|split].
  - unfold valid_assumptions.
    cbn [collect_user_inputs current_revenue ebit_margin fcf_conversion
         tax_rate terminal_growth wacc].
    rewrite !Qdiv_100. repeat split; lra.
  - eapply List.Forall_impl; [|exact Hg]. cbn beta. intros g [H _]. lra.
  - cbn [collect_user_inputs terminal_growth]. rewrite Qdiv_100. lra.
Qed.

(** X11.  For whatever the sidebar widgets return within their bounds,
    [collect_user_inputs] yields five growth rates between 0 and 0.30 and a
    [wacc] not below the terminal growth rate.  The valuation run on the
    result returns, with positive parts and a positive enterprise value,
    whenever the WACC slider is above the terminal-growth slider; the only
    other setting the bounds allow is both sliders at 5, and there the
    valuation raises [ZeroDivisionError]. *)
Theorem sidebar_valuation (ui : Sidebar) :
  within_widget_bounds ui ->
  length (growth_rates (collect_user_inputs ui)) = 5%nat
  /\ List.Forall (fun g => 0 <= g /\ g <= 30 # 100)
                 (growth_rates (collect_user_inputs ui))
  /\ terminal_growth (collect_user_inputs ui) <= wacc (collect_user_inputs ui)
  /\ (terminal_growth_slider ui < wacc_slider ui ->
      exists r,
        run_valuation (collect_user_inputs ui) = Ok r
        /\ 0 < pv_forecast_period r
        /\ 0 < pv_terminal_value r
        /\ 0 < enterprise_value r)
  /\ (wacc_slider ui <= terminal_growth_slider ui ->
      wacc_slider ui == 5 /\ terminal_growth_slider ui == 5
      /\ run_valuation (collect_user_inputs ui) = Raise ZeroDivisionError).
Proof.
  intros Hb.
  split; [reflexivity|]. split; [now apply sidebar_growth_rates_bounds|].
  pose proof Hb as (_ & _ & _ & _ & Hw & Ht & _).
  split.
  { cbn [collect_user_inputs terminal_growth wacc]. rewrite !Qdiv_100. lra. }
  split.
  - intros Hlt.
    destruct (sidebar_valid_assumptions ui Hb Hlt) as (Hv & Hg & Htg).
    destruct (valuation_positive_parts (collect_user_inputs ui) Hv
                ltac:(discriminate) Hg Htg)
      as (r & Hr & _ & _ & _ & _ & _ & _ & _ & Hpv & Hfc & Hlt1 & _).
    exists r. split; [exact Hr|]. split; [exact Hfc|].
    split; [exact Hpv|]. lra.
  - intros Hle. split; [lra|]. split; [lra|].
    apply run_valuation_equal_rates.
    + discriminate.
    + cbn [collect_user_inputs wacc]. rewrite Qdiv_100. intros E. lra.
    + cbn [collect_user_inputs terminal_growth wacc]. rewrite !Qdiv_100.
      lra.
Qed.

Lemma sidebar_valuation_witness :
  exists r,
    run_valuation
      (collect_user_inputs
         (mkSidebar 100 (fun _ => 10) 20 25 10 3 80)) = Ok r
    /\ 0 < enterprise_value r.
Proof.
  destruct (sidebar_valuation (mkSidebar 100 (fun _ => 10) 20 25 10 3 80))
    as (_ & _ & _ & Hok & _).
  - unfold within_widget_bounds. cbn.
    repeat split; discriminate.
  - destruct Hok as (r & Hr & _ & _ & Hev); [reflexivity|].
    exists r. split; [exact Hr|exact Hev].
Defined.

(** ** Raising one growth rate *)

Lemma compound_start_le (growths : list Q) :
  List.Forall (fun g => -1 <= g) growths ->
  forall p p' i x x',
    0 <= p -> p <= p' ->
    compound p growths !! i = Some x ->
    compound p' growths !! i = Some x' ->
    x <= x'.
Proof.
  induction 1 as [|g growths Hg _ IH]; intros p p' i x x' Hp Hle Hx Hx'.
  - destruct i; discriminate.
  - assert (H1 : 0 <= p * (1 + g))
      by (apply Qmult_le_0_compat; [assumption|lra]).
    assert (H2 : p * (1 + g) <= p' * (1 + g)) by nra.
    destruct i as [|i]; cbn in Hx, Hx'.
    + injection Hx as <-. injection Hx' as <-. exact H2.
    + exact (IH _ _ _ _ _ H1 H2 Hx Hx').
Qed.

Lemma compound_replace_le (growths : list Q) :
  List.Forall (fun g => -1 <= g) growths ->
  forall p j g g' i x x',
    0 <= p -> growths !! j = Some g -> g <= g' ->
    compound p growths !! i = Some x ->
    compound p (<[j := g']> growths) !! i = Some x' ->
    ((i < j)%nat -> x' = x) /\ x <= x'.
Proof.
  induction 1 as [|g0 growths Hg0 Hrest IH];
    intros p j g g' i x x' Hp Hj Hle Hx Hx'.
  - destruct j; discriminate.
  - assert (H1 : 0 <= p * (1 + g0))
      by (apply Qmult_le_0_compat; [assumption|lra]).
    destruct j as [|j].
    + cbn in Hj. injection Hj as ->.
      assert (H2 : p * (1 + g) <= p * (1 + g')) by nra.
      split; [lia|].
      destruct i as [|i]; cbn in Hx, Hx'.
      * injection Hx as <-. injection Hx' as <-. exact H2.
      * exact (compound_start_le growths Hrest _ _ _ _ _ H1 H2 Hx Hx').
    + destruct i as [|i]; cbn in Hx, Hx'.
      * injection Hx as <-. injection Hx' as <-.
        split; [reflexivity|apply Qle_refl].
      * cbn in Hj.
        destruct (IH _ _ _ _ _ _ _ H1 Hj Hle Hx Hx') as [Hb Ha].
        split; [intros; apply Hb; lia|exact Ha].
Qed.

Lemma projected_fcfs_lookup (self : DCFModel) (i : nat) :
  projected_fcfs self !! i
  = (fun x => x * ebit_margin self * (1 - tax_rate self)
              * fcf_conversion self)
      <$> compound (current_revenue self) (growth_rates self) !! i.
Proof.
  unfold projected_fcfs, calculate_fcf, calculate_nopat, calculate_ebit.
  rewrite (list_lookup_fmap _ _ i), (list_lookup_fmap _ _ i),
    (list_lookup_fmap _ _ i), project_revenue_compound.
  now destruct (compound _ _ !! i).
Qed.

Lemma py_sum_zip_mul_le (l l' : list Q) :
  List.Forall2 Qle l l' ->
  forall d a a',
    List.Forall (fun x => 0 < x) d -> a <= a' ->
    fold_left Qplus (zip_mul l d) a <= fold_left Qplus (zip_mul l' d) a'.
Proof.
  unfold zip_mul.
  induction 1 as [|x x' l l' Hx _ IH]; intros d a a' Hd Ha.
  - exact Ha.
  - destruct Hd as [|y d Hy Hd]; [exact Ha|].
    cbn [List.combine List.map fold_left fst snd].
    apply IH; [exact Hd|]. nra.
Qed.

(** X13.  For a record with revenue, margin and conversion rate that are
    not negative, a tax rate of at most 1, every growth rate at least
    -100% and [-1 <= terminal_growth < wacc]: when both valuations return,
    raising the growth rate of one year leaves the revenues and cash flows
    of the years before it unchanged, lowers no revenue and no cash flow
    of any year, and does not lower the enterprise value. *)
Theorem growth_rate_monotone (self : DCFModel) (j : nat) (g g' : Q)
  (r r' : Valuation) :
  0 <= current_revenue self ->
  0 <= ebit_margin self ->
  0 <= fcf_conversion self ->
  tax_rate self <= 1 ->
  List.Forall (fun g => -1 <= g) (growth_rates self) ->
  -1 <= terminal_growth self ->
  terminal_growth self < wacc self ->
  growth_rates self !! j = Some g ->
  g <= g' ->
  run_valuation self = Ok r ->
  run_valuation (with_growth_at self j g') = Ok r' ->
  (forall i x x',
     revenues r !! i = Some x -> revenues r' !! i = Some x' ->
     ((i < j)%nat -> x' = x) /\ x <= x')
  /\ (forall i x x',
        fcfs r !! i = Some x -> fcfs r' !! i = Some x' ->
        ((i < j)%nat -> x' = x) /\ x <= x')
  /\ enterprise_value r <= enterprise_value r'.
Proof.
  intros Hrev Hm Hc Htax Hgrowth Htg Hwg Hj Hle Hr Hr'.
  pose proof (run_valuation_enterprise_value _ _ Hr) as Hev.
  pose proof (run_valuation_enterprise_value _ _ Hr') as Hev'.
  apply run_valuation_inv in Hr as (_ & _ & _ & f & Hf & ->).
  apply run_valuation_inv in Hr' as (_ & _ & _ & f' & Hf' & ->).
  pose proof (lookup_lt_Some _ _ _ Hj) as Hjlen.
  assert (Hrevs : forall i x x',
             compound (current_revenue self) (growth_rates self) !! i = Some x ->
             compound (current_revenue self)
                      (<[j := g']> (growth_rates self)) !! i = Some x' ->
             ((i < j)%nat -> x' = x) /\ x <= x').
  { intros i x x'. now apply (compound_replace_le _ Hgrowth _ j g g'). }
  assert (Hfcfs : forall i x x',
             projected_fcfs self !! i = Some x ->
             projected_fcfs (with_growth_at self j g') !! i = Some x' ->
             ((i < j)%nat -> x' = x) /\ x <= x').
  { intros i x x' Hx Hx'.
    rewrite projected_fcfs_lookup in Hx, Hx'.
    cbn [with_growth_at with_growth_rates current_revenue growth_rates
         ebit_margin tax_rate fcf_conversion] in Hx'.
    destruct (compound _ (growth_rates self) !! i) as [y|] eqn:Hy;
      [|discriminate].
    destruct (compound _ (<[j := g']> (growth_rates self)) !! i)
      as [y'|] eqn:Hy'; [|discriminate].
    cbn in Hx, Hx'. injection Hx as <-. injection Hx' as <-.
    destruct (Hrevs i y y' Hy Hy') as [Hb Ha].
    split; [intros H; now rewrite (Hb H)|].
    assert (K1 : 0 <= ebit_margin self * (1 - tax_rate self))
      by (apply Qmult_le_0_compat; lra).
    assert (K : 0 <= ebit_margin self * (1 - tax_rate self)
                     * fcf_conversion self)
      by (apply Qmult_le_0_compat; lra).
    nra. }
  split.
  { intros i x x'.
    cbn [revenues valuation_of]. rewrite !project_revenue_compound.
    apply Hrevs. }
  split.
  { intros i x x'. cbn [fcfs valuation_of].
    fold (projected_fcfs self).
    fold (projected_fcfs (with_growth_at self j g')).
    apply Hfcfs. }
  rewrite Hev, Hev'.
  cbn [with_growth_at with_growth_rates wacc terminal_growth].
  assert (Hlen : length (projected_fcfs (with_growth_at self j g'))
                 = length (projected_fcfs self)).
  { rewrite !length_projected_fcfs. cbn. apply length_insert. }
  assert (Hall : List.Forall2 Qle (projected_fcfs self)
                              (projected_fcfs (with_growth_at self j g'))).
  { apply Forall2_same_length_lookup. split; [now rewrite Hlen|].
    intros i x x' Hx Hx'. now apply (Hfcfs i x x' Hx Hx'). }
  pose proof Hf as Hf0. pose proof Hf' as Hf0'.
  apply py_last_lookup in Hf0, Hf0'. rewrite Hlen in Hf0'.
  assert (Hlast : f <= f') by (now apply (Hfcfs _ f f' Hf0 Hf0')).
  unfold value_of_rates.
  rewrite (py_last_inv _ _ Hf), (py_last_inv _ _ Hf').
  assert (Hdfs : List.Forall (fun x => 0 < x) (five_factors (wacc self)))
    by (apply five_factors_positive; lra).
  pose proof (py_sum_zip_mul_le _ _ Hall (five_factors (wacc self)) 0 0 Hdfs
                ltac:(lra)) as Hsum.
  fold (py_sum (zip_mul (projected_fcfs self) (five_factors (wacc self))))
    in Hsum.
  fold (py_sum (zip_mul (projected_fcfs (with_growth_at self j g'))
                        (five_factors (wacc self)))) in Hsum.
  assert (Hdf5 : 0 < year_factor (wacc self) 5).
  { unfold year_factor, Qdiv. rewrite Qmult_1_l.
    apply Qinv_lt_0_compat, Qpower_0_lt. lra. }
  assert (Hinv : 0 < / (wacc self - terminal_growth self))
    by (apply Qinv_lt_0_compat; lra).
  assert (Hcoef : 0 <= (1 + terminal_growth self)
                       * / (wacc self - terminal_growth self)
                       * year_factor (wacc self) 5).
  { apply Qmult_le_0_compat; [|lra].
    apply Qmult_le_0_compat; lra. }
  unfold Qdiv.
  set (S1 := py_sum _) in *. set (S2 := py_sum _) in *.
  set (c := (1 + terminal_growth self)
            * / (wacc self - terminal_growth self)
            * year_factor (wacc self) 5) in *.
  assert (E1 : f * (1 + terminal_growth self)
               * / (wacc self - terminal_growth self)
               * year_factor (wacc self) 5 == f * c)
    by (unfold c; ring).
  assert (E2 : f' * (1 + terminal_growth self)
               * / (wacc self - terminal_growth self)
               * year_factor (wacc self) 5 == f' * c)
    by (unfold c; ring).
  rewrite E1, E2. clearbody S1 S2 c. nra.
Qed.

Lemma growth_rate_monotone_witness :
  exists r r',
    run_valuation scenario = Ok r
    /\ run_valuation (with_growth_at scenario 2 (11 # 100)) = Ok r'
    /\ enterprise_value r <= enterprise_value r'.
Proof.
  destruct (run_valuation scenario) as [r|e] eqn:Hr;
    [|vm_compute in Hr; discriminate].
  destruct (run_valuation (with_growth_at scenario 2 (11 # 100)))
    as [r'|e] eqn:Hr'; [|vm_compute in Hr'; discriminate].
  destruct (growth_rate_monotone scenario 2 (10 # 100) (11 # 100) r r'
              ltac:(discriminate) ltac:(discriminate) ltac:(discriminate)
              ltac:(discriminate)
              ltac:(cbn; repeat constructor; discriminate)
              ltac:(discriminate) ltac:(reflexivity) eq_refl
              ltac:(discriminate) Hr Hr')
    as (_ & _ & Hev).
  exists r, r'. split; [reflexivity|]. split; [reflexivity|exact Hev].
Defined.
